(** * ripper.py: the delegation chain and the Controller

    A shallow embedding of [src/ripper.py] (classes [GenericRipper] and
    [Controller]).  Python methods become functions in a state-and-exception
    monad over an explicit [World]: the directory tree and the process's
    current directory, the HTTP responses the network would give, the
    logging configuration and the records written so far, and the number of
    HTTP sessions created.  A raised Python exception is [inl e]; effects made
    before the raise stay in the world, as in Python. *)

From Stdlib Require Import String Ascii List ZArith Bool Lia.
Import ListNotations.
Set Warnings "-register-all".
Local Open Scope string_scope.
Local Open Scope list_scope.

(** ** Python values and exceptions *)

(** The [errno] values the modelled system calls can give; Python turns
    each into a subclass of [OSError]. *)
Inductive errno : Type :=
| ENOENT     (* FileNotFoundError *)
| EEXIST     (* FileExistsError *)
| ENOTDIR    (* NotADirectoryError *)
| EISDIR     (* IsADirectoryError *)
| ENAMETOOLONG.  (* errno 36, a plain OSError *)

Inductive exn : Type :=
| AttributeError (obj attr : string)   (* 'obj' object has no attribute 'attr' *)
| UnboundLocalError (var : string)
| OSError (e : errno)
| ValueError (msg : string)            (* json.JSONDecodeError is a ValueError *)
| SystemExit (code : Z)                (* raised by exit(code) *)
| LibraryError (cls msg : string).     (* whatever requests or lxml raises *)

(** The class name Python reports for an exception. *)
Definition exn_name (e : exn) : string :=
  match e with
  | AttributeError _ _ => "AttributeError"
  | UnboundLocalError _ => "UnboundLocalError"
  | OSError ENOENT => "FileNotFoundError"
  | OSError EEXIST => "FileExistsError"
  | OSError ENOTDIR => "NotADirectoryError"
  | OSError EISDIR => "IsADirectoryError"
  | OSError ENAMETOOLONG => "OSError"
  | ValueError _ => "ValueError"
  | SystemExit _ => "SystemExit"
  | LibraryError cls _ => cls
  end.

(** [except OSError] and [except ValueError]. *)
Definition is_OSError (e : exn) : bool :=
  match e with OSError _ => true | _ => false end.

Definition is_ValueError (e : exn) : bool :=
  match e with ValueError _ => true | _ => false end.

(** What [requests] hands back for a GET. *)
Record Response : Type := mkResponse {
  status_code : Z;
  content : string;
  headers : list (string * string)
}.

(** The element tree [lxml.html.fromstring] builds. *)
Inductive HtmlElement : Type :=
| Element (tag : string) (text : string) (children : list HtmlElement).

Inductive value : Type :=
| VNone
| VBool (b : bool)
| VInt (z : Z)
| VStr (s : string)
| VList (l : list value)
| VDict (kv : list (string * value))
| VExn (e : exn)
| VResponse (r : Response)
| VTree (t : HtmlElement).

(** The two library calls whose result depends on text: [json.load] on the
    text of the opened file and [lxml.html.fromstring] on a response body.
    Either may raise. *)
Class Libraries : Type := {
  json_load : string -> exn + value;
  html_fromstring : string -> exn + HtmlElement
}.

(** ** The file system

    A tree of directories and regular files (no symbolic links, no
    permissions); a path is the list of names from the root.  What is
    proved about where [chdir] leads is proved for such trees. *)
Inductive entry : Type :=
| File (text : string)
| Dir (children : list (string * entry)).

Definition path : Type := list string.

Fixpoint assoc {A : Type} (k : string) (l : list (string * A)) : option A :=
  match l with
  | [] => None
  | (k', v) :: l' => if String.eqb k k' then Some v else assoc k l'
  end.

Fixpoint replace {A : Type} (k : string) (v : A) (l : list (string * A))
  : list (string * A) :=
  match l with
  | [] => []
  | (k', v') :: l' =>
      if String.eqb k k' then (k', v) :: l' else (k', v') :: replace k v l'
  end.

Fixpoint lookup (e : entry) (p : path) : option entry :=
  match p with
  | [] => Some e
  | c :: p' =>
      match e with
      | Dir ch =>
          match assoc c ch with
          | Some e' => lookup e' p'
          | None => None
          end
      | File _ => None
      end
  end.

(** [add_dir e p]: the tree [e] with a new empty directory at [p]; [None]
    when [p] is taken or its parent is not a directory of [e]. *)
Fixpoint add_dir (e : entry) (p : path) : option entry :=
  match p with
  | [] => None
  | c :: p' =>
      match e with
      | File _ => None
      | Dir ch =>
          match p' with
          | [] =>
              match assoc c ch with
              | None => Some (Dir (ch ++ [(c, Dir [])]))
              | Some _ => None
              end
          | _ :: _ =>
              match assoc c ch with
              | Some e' =>
                  match add_dir e' p' with
                  | Some e'' => Some (Dir (replace c e'' ch))
                  | None => None
                  end
              | None => None
              end
          end
      end
  end.

Definition is_dir (o : option entry) : bool :=
  match o with Some (Dir _) => true | _ => false end.

(** *** Path strings *)

Definition slash : ascii := "/"%char.

(** [split_slash "a/b" = ["a"; "b"]], as Python's [s.split("/")]. *)
Fixpoint split_slash (s : string) : list string :=
  match s with
  | EmptyString => [EmptyString]
  | String c s' =>
      if Ascii.eqb c slash then EmptyString :: split_slash s'
      else match split_slash s' with
           | h :: t => String c h :: t
           | [] => [String c EmptyString]
           end
  end.

Definition nonempty (s : string) : bool := negb (String.eqb s "").

(** The components the kernel walks: empty ones (from repeated or trailing
    slashes) are skipped. *)
Definition components (s : string) : list string :=
  filter nonempty (split_slash s).

Definition is_abs (s : string) : bool :=
  match s with
  | String c _ => Ascii.eqb c slash
  | EmptyString => false
  end.

Definition trailing_slash (s : string) : bool :=
  match rev (split_slash s) with
  | last :: _ :: _ => String.eqb last ""
  | _ => false
  end.

Definition nul : ascii := "000"%char.

Fixpoint has_nul (s : string) : bool :=
  match s with
  | EmptyString => false
  | String c s' => Ascii.eqb c nul || has_nul s'
  end.

(** The limits of Linux: bytes in one component, and bytes in a whole
    name with its terminator. *)
Definition NAME_MAX : nat := 255.
Definition PATH_MAX : nat := 4096.

(** What Python and the system accept as a name at all: no NUL byte, fewer
    than [PATH_MAX] bytes, no component over [NAME_MAX] bytes. *)
Definition accepted (s : string) : bool :=
  negb (has_nul s)
  && Nat.ltb (String.length s) PATH_MAX
  && forallb (fun c => Nat.leb (String.length c) NAME_MAX) (components s).

Fixpoint has_slash (s : string) : bool :=
  match s with
  | EmptyString => false
  | String c s' => Ascii.eqb c slash || has_slash s'
  end.

(** A name that is one ordinary component: not empty, no slash, neither
    [.] nor [..], and acceptable to Python and the system (no NUL byte, at
    most [NAME_MAX] bytes). *)
Definition simple_name (s : string) : bool :=
  negb (has_slash s) && nonempty s
  && negb (String.eqb s ".") && negb (String.eqb s "..")
  && negb (has_nul s) && Nat.leb (String.length s) NAME_MAX.

(** One component from the directory [cur]; the root is its own parent. *)
Definition step (cur : path) (c : string) : path :=
  if String.eqb c "." then cur
  else if String.eqb c ".." then removelast cur
  else cur ++ [c].

(** Walks [comps] from [cur].  Every directory stepped out of must exist,
    and a component looked up in it has at most [NAME_MAX] bytes; the path
    reached by the last component may not exist. *)
Fixpoint walk (root : entry) (cur : path) (comps : list string)
  : errno + path :=
  match comps with
  | [] => inr cur
  | c :: rest =>
      match lookup root cur with
      | Some (Dir _) =>
          if Nat.ltb NAME_MAX (String.length c) then inl ENAMETOOLONG
          else walk root (step cur c) rest
      | Some (File _) => inl ENOTDIR
      | None => inl ENOENT
      end
  end.

(** The path a name denotes for a process whose current directory is
    [cwd].  A name of [PATH_MAX] bytes or more is refused before the walk.
    A name with a NUL byte denotes nothing: Python hands no such name to
    the system (see the [os] calls below). *)
Definition resolve (root : entry) (cwd : path) (name : string)
  : errno + path :=
  if String.eqb name "" then inl ENOENT
  else if has_nul name then inl ENOENT
  else if Nat.leb PATH_MAX (String.length name) then inl ENAMETOOLONG
  else walk root (if is_abs name then [] else cwd) (components name).

(** [stat]: the entry at a name, which must exist, and be a directory when
    the name ends in a slash. *)
Definition stat (root : entry) (cwd : path) (name : string)
  : errno + (path * entry) :=
  match resolve root cwd name with
  | inl e => inl e
  | inr p =>
      match lookup root p with
      | None => inl ENOENT
      | Some (File t) =>
          if trailing_slash name then inl ENOTDIR else inr (p, File t)
      | Some (Dir ch) => inr (p, Dir ch)
      end
  end.

(** ** The world and the monad

    What [logging] writes goes to [log_out]; the console or the log file is
    not part of the directory tree [fs], and opening the log file is taken
    to succeed. *)

(** A record handed to [logging]: the level, the message object and the
    arguments of the [%] formatting, kept apart as [logging.LogRecord]
    does. *)
Record LogRecord : Type := mkLogRecord {
  levelno : Z;
  msg : value;
  args : list value
}.

Record World : Type := mkWorld {
  fs : entry;                          (* the directory tree, from the root *)
  cwd : path;                          (* the process's current directory *)
  net : string -> exn + Response;      (* what a GET of a URL gives *)
  log_handlers : bool;                 (* the root logger has a handler *)
  log_level : Z;                       (* threshold of the root logger *)
  log_file : option string;            (* None: the console *)
  log_out : list LogRecord;            (* records written, oldest first *)
  sessions : nat                       (* requests.Session objects created *)
}.

Definition set_fs (e : entry) (w : World) : World :=
  mkWorld e (cwd w) (net w) (log_handlers w) (log_level w) (log_file w)
          (log_out w) (sessions w).

Definition set_cwd (p : path) (w : World) : World :=
  mkWorld (fs w) p (net w) (log_handlers w) (log_level w) (log_file w)
          (log_out w) (sessions w).

Definition set_logging (lvl : Z) (f : option string) (w : World) : World :=
  mkWorld (fs w) (cwd w) (net w) true lvl f (log_out w) (sessions w).

Definition add_record (r : LogRecord) (w : World) : World :=
  mkWorld (fs w) (cwd w) (net w) (log_handlers w) (log_level w) (log_file w)
          (log_out w ++ [r]) (sessions w).

Definition add_session (w : World) : World :=
  mkWorld (fs w) (cwd w) (net w) (log_handlers w) (log_level w) (log_file w)
          (log_out w) (S (sessions w)).

(** A computation over a state [S] that returns an [A] or raises. *)
Definition M (S A : Type) : Type := S -> (exn + A) * S.

Definition ret {S A : Type} (a : A) : M S A := fun s => (inr a, s).

Definition raise {S A : Type} (e : exn) : M S A := fun s => (inl e, s).

Definition bind {S A B : Type} (m : M S A) (k : A -> M S B) : M S B :=
  fun s =>
    match m s with
    | (inr a, s') => k a s'
    | (inl e, s') => (inl e, s')
    end.

(** [attempt m] never raises: it hands the exception to the caller as a value,
    for the [except] clauses to inspect. *)
Definition attempt {S A : Type} (m : M S A) : M S (exn + A) :=
  fun s => let (r, s') := m s in (inr r, s').

Definition of_result {S A : Type} (r : exn + A) : M S A :=
  fun s => (r, s).

Declare Scope py_scope.
Delimit Scope py_scope with py.
Notation "x <- m ;; k" := (bind m (fun x => k))
  (at level 61, m at next level, right associativity) : py_scope.
Notation "m ;; k" := (bind m (fun _ => k))
  (at level 61, right associativity) : py_scope.
Local Open Scope py_scope.

(** ** The [os] calls the program makes

    Python refuses a name with a NUL byte before any system call:
    [os.mkdir] and [os.chdir] raise [ValueError], [os.path.isdir] answers
    [False]. *)

Definition embedded_null : exn := ValueError "embedded null byte".

(** [os.path.isdir]: any failure of [stat], and the [ValueError], is
    [False]. *)
Definition os_path_isdir (name : string) : M World bool :=
  fun w =>
    if has_nul name then (inr false, w) else
    match stat (fs w) (cwd w) name with
    | inr (_, Dir _) => (inr true, w)
    | _ => (inr false, w)
    end.

Definition os_mkdir (name : string) : M World unit :=
  fun w =>
    if has_nul name then (inl embedded_null, w) else
    match resolve (fs w) (cwd w) name with
    | inl e => (inl (OSError e), w)
    | inr p =>
        match lookup (fs w) p with
        | Some _ => (inl (OSError EEXIST), w)
        | None =>
            match add_dir (fs w) p with
            | Some root' => (inr tt, set_fs root' w)
            | None => (inl (OSError ENOENT), w)
            end
        end
    end.

Definition os_chdir (name : string) : M World unit :=
  fun w =>
    if has_nul name then (inl embedded_null, w) else
    match stat (fs w) (cwd w) name with
    | inr (p, Dir _) => (inr tt, set_cwd p w)
    | inr (_, File _) => (inl (OSError ENOTDIR), w)
    | inl e => (inl (OSError e), w)
    end.

(** [open(name, 'r')], as far as the program uses it: the text that
    [json.load] will read.  The only name the program opens is the
    configuration path of the command line, and an argument of a process
    holds no NUL byte; the [ValueError] Python would raise for one is left
    out, and such a name is not found. *)
Definition open_r (name : string) : M World string :=
  fun w =>
    match stat (fs w) (cwd w) name with
    | inr (_, File t) => (inr t, w)
    | inr (_, Dir _) => (inl (OSError EISDIR), w)
    | inl e => (inl (OSError e), w)
    end.

(** ** [logging] *)

Definition CRITICAL : Z := 50.
Definition ERROR : Z := 40.
Definition WARNING : Z := 30.
Definition INFO : Z := 20.
Definition DEBUG : Z := 10.

(** The levels [logging] defines for records. *)
Definition builtin_levels : list Z := [CRITICAL; ERROR; WARNING; INFO; DEBUG].

(** A logger, as [logging.getLogger(name)] returns it. *)
Record Logger : Type := mkLogger { logger_name : string }.

(** [log.<attr>(msg, *args)] on an attribute that may hold [None]: the
    record is written when its level reaches the threshold. *)
Definition emit (r : LogRecord) (w : World) : World :=
  if (log_level w <=? levelno r)%Z then add_record r w else w.

Definition Logger_log (attr : string) (lvl : Z) (log : option Logger)
    (m : value) (a : list value) : M World unit :=
  match log with
  | None => raise (AttributeError "NoneType" attr)
  | Some _ => fun w => (inr tt, emit (mkLogRecord lvl m a) w)
  end.

Definition debug := Logger_log "debug" DEBUG.
Definition info := Logger_log "info" INFO.
Definition warning := Logger_log "warning" WARNING.
Definition critical := Logger_log "critical" CRITICAL.

(** [logging.basicConfig(filename=..., level=..., format=...)]: gives the
    root logger a handler and the threshold, and does nothing when the root
    logger has a handler already.  With a filename the real call also opens
    that file for appending; here the log file is outside [fs] and opening
    it is taken to succeed, which is exact when there is no filename (the
    handler then writes to the console). *)
Definition configure (level : Z) (filename : option string) (w : World)
  : World :=
  if log_handlers w then w else set_logging level filename w.

Definition logging_basicConfig (filename : option string) (level : Z)
  : M World unit :=
  fun w => (inr tt, configure level filename w).

Definition logging_getLogger (name : string) : M World Logger :=
  ret (mkLogger name).

(** ** The objects *)

(** The [argparse] namespace the script block builds. *)
Record Args : Type := mkArgs {
  config : string;
  dryrun : bool;
  logfile : option string;
  loglevel : Z
}.

(** A [requests.Session], told apart by the order of creation. *)
Record Session : Type := mkSession { session_id : nat }.

(** The attributes of a [Controller].  Its [_parent] is [None] from
    [__init__] on and none of its methods reads it. *)
Record Controller : Type := mkController {
  name : string;
  _log : option Logger;
  _config : value;
  _args : option Args;
  _dryrun : bool;
  _session : option Session
}.

(** A ripper object: a plain [GenericRipper(name, parent)], whose [_log] and
    [_config] stay [None], or the [Controller].  The parent is held by
    value: the three forwarded methods only read the receiver. *)
Inductive Ripper : Type :=
| Plain (nm : string) (parent : option Ripper)
| Root (c : Controller).

Definition set__log (l : Logger) (c : Controller) : Controller :=
  mkController (name c) (Some l) (_config c) (_args c) (_dryrun c) (_session c).

Definition set__dryrun (b : bool) (c : Controller) : Controller :=
  mkController (name c) (_log c) (_config c) (_args c) b (_session c).

Definition set__config (v : value) (c : Controller) : Controller :=
  mkController (name c) (_log c) v (_args c) (_dryrun c) (_session c).

Definition set__session (s : Session) (c : Controller) : Controller :=
  mkController (name c) (_log c) (_config c) (_args c) (_dryrun c) (Some s).

(** Methods that assign to attributes of [self] run over the object and the
    world together. *)
Definition lift_world {A : Type} (m : M World A) : M (Controller * World) A :=
  fun s =>
    let (r, w') := m (snd s) in (r, (fst s, w')).

Definition self : M (Controller * World) Controller :=
  fun s => (inr (fst s), s).

Definition setattr (f : Controller -> Controller) : M (Controller * World) unit :=
  fun s => (inr tt, (f (fst s), snd s)).

(** [requests.Session()]. *)
Definition requests_Session : M World Session :=
  fun w => (inr (mkSession (sessions w)), add_session w).

(** [session.get(url)] on an attribute that may hold [None]. *)
Definition Session_get (s : option Session) (url : string) : M World Response :=
  match s with
  | None => raise (AttributeError "NoneType" "get")
  | Some _ => fun w => (net w url, w)
  end.

Section Program.

Context {libs : Libraries}.

(** *** [GenericRipper]'s helpers, inherited by [Controller] *)

Definition _log_declare_entry (log : option Logger) (func : string)
  : M World unit :=
  debug log (VStr "Entering %s") [VStr func].

Definition _log_declare_return (log : option Logger) (func : string)
  : M World unit :=
  debug log (VStr "%s returning") [VStr func].

(** [GenericRipper.__init_log], which nothing calls. *)
Definition _GenericRipper__init_log (nm : string) : M World Logger :=
  logging_getLogger nm.

(** *** [Controller] *)

(** [Controller(arguments)]. *)
Definition Controller_new (arguments : option Args) : Controller :=
  mkController "root" None VNone arguments true None.

Definition _is_dryrun (c : Controller) : bool := _dryrun c.

(** The [if]/[elif] chain of [__init_log]: the level for a [loglevel], or
    nothing bound to [level] when no branch is taken. *)
Definition loglevel_to_level (loglevel : Z) : option Z :=
  if (loglevel =? 0)%Z then Some 51%Z
  else if (loglevel =? 1)%Z then Some CRITICAL
  else if (loglevel =? 2)%Z then Some ERROR
  else if (loglevel =? 3)%Z then Some WARNING
  else if (loglevel =? 4)%Z then Some INFO
  else if (loglevel =? 5)%Z then Some DEBUG
  else None.

Definition _Controller__init_log (loglevel : Z) (logfile : option string)
    (nm : string) : M World Logger :=
  level <- match loglevel_to_level loglevel with
           | Some l => ret l
           | None => raise (UnboundLocalError "level")
           end ;;
  logging_basicConfig logfile level ;;
  log <- logging_getLogger nm ;;
  info (Some log) (VStr "Starting log") [] ;;
  debug (Some log) (VStr "Developer spam sandwich is go!") [] ;;
  ret log.

Definition _Controller__parse_config (c : Controller) (conffile : string)
  : M World value :=
  _log_declare_entry (_log c) "__parse_config" ;;
  debug (_log c) (VStr "Opening configuration file at %s") [VStr conffile] ;;
  opened <- attempt (open_r conffile) ;;
  match opened with
  | inl error =>
      if is_OSError error then
        critical (_log c) (VStr "Could not open configuration file!") [] ;;
        critical (_log c) (VExn error) [] ;;
        ret VNone
      else raise error
  | inr configf =>
      debug (_log c) (VStr "Parsing configuration file") [] ;;
      match json_load configf with
      | inl error =>
          if is_ValueError error then
            critical (_log c) (VStr "Could not parse configuration file!") [] ;;
            critical (_log c) (VExn error) [] ;;
            ret VNone
          else raise error
      | inr contents =>
          (* configf.close() has no effect on the world *)
          debug (_log c) (VStr "Got configuration %s") [contents] ;;
          _log_declare_return (_log c) "__parse_config" ;;
          ret contents
      end
  end.

Definition _Controller__init_session (c : Controller) : M World Session :=
  _log_declare_entry (_log c) "__init_session" ;;
  session <- requests_Session ;;
  _log_declare_return (_log c) "__init_session" ;;
  ret session.

Definition is_None (v : value) : bool :=
  match v with VNone => true | _ => false end.

Definition Controller_init : M (Controller * World) unit :=
  c <- self ;;
  args <- match _args c with
          | Some a => ret a
          | None => raise (AttributeError "NoneType" "loglevel")
          end ;;
  log <- lift_world (_Controller__init_log (loglevel args) (logfile args) (name c)) ;;
  setattr (set__log log) ;;
  setattr (set__dryrun (dryrun args)) ;;
  c <- self ;;
  (if _is_dryrun c
   then lift_world (info (_log c) (VStr "This is a dry run") [])
   else lift_world (info (_log c) (VStr "This is a live run") [])) ;;
  cfg <- lift_world (_Controller__parse_config c (config args)) ;;
  setattr (set__config cfg) ;;
  c <- self ;;
  (if is_None (_config c)
   then lift_world (critical (_log c) (VStr "Failed to parse configuration file!") []) ;;
        raise (SystemExit 1)
   else ret tt) ;;
  lift_world (debug (_log c) (VStr "Initializing session") []) ;;
  session <- lift_world (_Controller__init_session c) ;;
  setattr (set__session session).

Definition Controller_fetch (c : Controller) (url : string) (tree : bool)
  : M World value :=
  _log_declare_entry (_log c) "fetch" ;;
  info (_log c) (VStr "Fetching %s") [VStr url] ;;
  page <- Session_get (_session c) url ;;
  debug (_log c) (VStr "Got page") [] ;;
  if tree then
    tree <- of_result (html_fromstring (content page)) ;;
    _log_declare_return (_log c) "fetch" ;;
    ret (VTree tree)
  else
    _log_declare_return (_log c) "fetch" ;;
    ret (VResponse page).

Definition Controller_descend (c : Controller) (nm : string)
    (ignore_exists : bool) : M World value :=
  _log_declare_entry (_log c) "descend" ;;
  if _is_dryrun c then
    debug (_log c) (VStr "Dry run. Taking no action.") [] ;;
    _log_declare_return (_log c) "descend" ;;
    ret (VBool true)
  else
    (* the statements after the if/elif *)
    let descension :=
      debug (_log c) (VStr "Descending into %s") [VStr nm] ;;
      os_chdir nm ;;
      _log_declare_return (_log c) "descend" ;;
      ret (VBool true) in
    isdir <- os_path_isdir nm ;;
    if negb isdir then
      debug (_log c) (VStr "Creating %s") [VStr nm] ;;
      os_mkdir nm ;;
      descension
    else if negb ignore_exists then
      warning (_log c) (VStr "Directory %s exists. Skipping") [VStr nm] ;;
      _log_declare_return (_log c) "descend" ;;
      ret (VBool false)
    else descension.

Definition Controller_ascend (c : Controller) : M World value :=
  _log_declare_entry (_log c) "ascend" ;;
  if _is_dryrun c then
    debug (_log c) (VStr "Dry run. Taking no action.") [] ;;
    ret VNone
  else
    debug (_log c) (VStr "Ascending from directory") [] ;;
    os_chdir ".." ;;
    ret VNone.

(** *** Method calls on a ripper

    [r.fetch(url, tree)], [r.descend(name, ignore_exists)] and [r.ascend()]:
    [Controller] overrides the three methods; a plain [GenericRipper] runs
    [self._parent.<method>(...)] as an expression statement and falls off the
    end of the function, so the call itself evaluates to [None]. *)
Fixpoint fetch (r : Ripper) (url : string) (tree : bool) : M World value :=
  match r with
  | Root c => Controller_fetch c url tree
  | Plain _ parent =>
      match parent with
      | None => raise (AttributeError "NoneType" "fetch")
      | Some p => fetch p url tree ;; ret VNone
      end
  end.

Fixpoint descend (r : Ripper) (nm : string) (ignore_exists : bool)
  : M World value :=
  match r with
  | Root c => Controller_descend c nm ignore_exists
  | Plain _ parent =>
      match parent with
      | None => raise (AttributeError "NoneType" "descend")
      | Some p => descend p nm ignore_exists ;; ret VNone
      end
  end.

Fixpoint ascend (r : Ripper) : M World value :=
  match r with
  | Root c => Controller_ascend c
  | Plain _ parent =>
      match parent with
      | None => raise (AttributeError "NoneType" "ascend")
      | Some p => ascend p ;; ret VNone
      end
  end.

(** The two ways [__parse_config] gives up: [open] raises (nothing there, a
    directory, a regular file used as a directory), or the text of the file
    is not JSON. *)
Definition config_fails (root : entry) (cur : path) (conffile : string)
  : Prop :=
  (forall p t, stat root cur conffile <> inr (p, File t))
  \/ (exists p t m, stat root cur conffile = inr (p, File t)
                    /\ json_load t = inl (ValueError m)).

End Program.

(** ** Callers

    The script block, and the calls a scraper built on these classes
    makes. *)

Section Callers.

Context {libs : Libraries}.


(** One call of a forwarded method. *)
Inductive call : Type :=
| CallFetch (url : string) (tree : bool)
| CallDescend (nm : string) (ignore_exists : bool)
| CallAscend.

Definition do_call (r : Ripper) (c : call) : M World value :=
  match c with
  | CallFetch url tree => fetch r url tree
  | CallDescend nm ignore_exists => descend r nm ignore_exists
  | CallAscend => ascend r
  end.

(** The calls in order, up to the first that raises; the values they
    returned. *)
Fixpoint do_calls (r : Ripper) (cs : list call) : M World (list value) :=
  match cs with
  | [] => ret []
  | c :: cs' =>
      (v <- do_call r c ;;
       vs <- do_calls r cs' ;;
       ret (v :: vs))%py
  end.

End Callers.

(** The Controller at the top of a chain of parents, if the chain ends in
    one. *)
Fixpoint controller_of (r : Ripper) : option Controller :=
  match r with
  | Root c => Some c
  | Plain _ None => None
  | Plain _ (Some p) => controller_of p
  end.

(** What a call on [r] evaluates to when the Controller's own call gave
    [res]: a plain ripper keeps the exception and drops the value. *)
Definition through (r : Ripper) (res : exn + value) : exn + value :=
  match r, res with
  | Root _, _ => res
  | Plain _ _, inr _ => inr VNone
  | Plain _ _, inl e => inl e
  end.

(** A ripper two levels below [top]: an item ripper whose parent is a site
    ripper whose parent is [top]. *)
Definition two_below (top : option Ripper) : Ripper :=
  Plain "item" (Some (Plain "site" top)).

(** ** Sample objects and worlds *)

(** A stand-in for the two libraries: the texts [{}] and [null] are the
    only JSON, and any body parses to a single element holding it. *)
Definition sample_libs : Libraries := {|
  json_load := fun t =>
    if String.eqb t "{}" then inr (VDict [])
    else if String.eqb t "null" then inr VNone
    else inl (ValueError "Expecting value");
  html_fromstring := fun body => inr (Element "html" body [])
|}.

Definition sample_args : Args := mkArgs "conf.json" false None 5%Z.

(** Arguments that name a file whose text is not JSON. *)
Definition bad_args : Args := mkArgs "bad.json" true (Some "rip.log") 1%Z.

(** Arguments that name a file holding the JSON text [null]. *)
Definition null_args : Args := mkArgs "null.json" false None 3%Z.

(** A Controller after [init] of a live run. *)
Definition live : Controller :=
  mkController "root" (Some (mkLogger "root")) (VDict []) (Some sample_args)
               false (Some (mkSession 0)).

(** The same in a dry run. *)
Definition dry : Controller := set__dryrun true live.

(** The root holds a directory [a], a regular file [f] and three
    configuration files; every URL answers 404. *)
Definition sample_world : World :=
  mkWorld (Dir [("a", Dir []); ("f", File "data"); ("conf.json", File "{}");
                ("bad.json", File "not json"); ("null.json", File "null")])
          [] (fun _ => inr (mkResponse 404 "Not Found" []))
          true DEBUG None [] 1.

(** The same tree at the start of the process: logging is not configured
    (the root logger's threshold is WARNING) and no session exists. *)
Definition fresh_world : World :=
  mkWorld (fs sample_world) [] (net sample_world) false WARNING None [] 0.

(** [same_tree w w']: the directory tree and the current directory of [w']
    are those of [w]. *)
Definition same_tree (w w' : World) : Prop :=
  fs w' = fs w /\ cwd w' = cwd w.

(** A computation that leaves them alone, however it ends. *)
Definition keeps_tree {A : Type} (m : M World A) : Prop :=
  forall w, same_tree w (snd (m w)).

(** Libraries as strict as the real ones on two inputs: an empty body is no
    HTML document, and the text [[[[[] stands for brackets nested deeper
    than the recursion limit of the JSON decoder. *)
Definition strict_libs : Libraries := {|
  json_load := fun t =>
    if String.eqb t "{}" then inr (VDict [])
    else if String.eqb t "[[[[" then inl (LibraryError "RecursionError"
                                           "maximum recursion depth exceeded")
    else inl (ValueError "Expecting value");
  html_fromstring := fun body =>
    if String.eqb body "" then inl (LibraryError "ParserError" "Document is empty")
    else inr (Element "html" body [])
|}.

(** A world where one host is down, one answers with an empty body, and
    the tree is two levels deep under the current directory [home]. *)
Definition other_world : World :=
  mkWorld (Dir [("home", Dir [("old", Dir [("deep", Dir [])]);
                              ("conf.json", File "{}");
                              ("nested.json", File "[[[[")]);
                ("etc", File "x")])
          ["home"]
          (fun url =>
             if String.eqb url "http://down.example/"
             then inl (LibraryError "ConnectionError" "Connection refused")
             else if String.eqb url "http://empty.example/"
             then inr (mkResponse 200 "" [])
             else inr (mkResponse 200 "<p>hi</p>" []))
          false WARNING None [] 0.



Definition quiet_args : Args := mkArgs "missing.json" false None 0%Z.

Definition nested_args : Args := mkArgs "nested.json" false None 2%Z.

(** ** What a run leaves untouched *)

(** [logged w w']: [w'] is [w] with records added, and nothing else. *)
Definition logged (w w' : World) : Prop :=
  fs w' = fs w /\ cwd w' = cwd w /\ sessions w' = sessions w /\
  log_level w' = log_level w /\
  exists rs, log_out w' = log_out w ++ rs.

Lemma logged_refl w : logged w w.
Proof.
  unfold logged; repeat split; exists []; now rewrite app_nil_r.
Qed.

Lemma logged_trans w1 w2 w3 : logged w1 w2 -> logged w2 w3 -> logged w1 w3.
Proof.
  intros (F1 & C1 & S1 & L1 & rs1 & O1) (F2 & C2 & S2 & L2 & rs2 & O2).
  unfold logged; repeat split; try congruence.
  exists (rs1 ++ rs2). rewrite O2, O1. now rewrite app_assoc.
Qed.

Lemma logged_emit r w : logged w (emit r w).
Proof.
  unfold emit. destruct (log_level w <=? levelno r)%Z.
  - unfold logged; cbn; repeat split. now exists [r].
  - apply logged_refl.
Qed.

Lemma fs_emit r w : fs (emit r w) = fs w.
Proof. apply (logged_emit r w). Qed.

Lemma cwd_emit r w : cwd (emit r w) = cwd w.
Proof. apply (logged_emit r w). Qed.

Lemma sessions_emit r w : sessions (emit r w) = sessions w.
Proof. apply (logged_emit r w). Qed.

Lemma net_emit r w : net (emit r w) = net w.
Proof. unfold emit. now destruct (log_level w <=? levelno r)%Z. Qed.

Lemma fs_set_fs e w : fs (set_fs e w) = e.
Proof. reflexivity. Qed.

Lemma cwd_set_fs e w : cwd (set_fs e w) = cwd w.
Proof. reflexivity. Qed.

Lemma fs_set_cwd p w : fs (set_cwd p w) = fs w.
Proof. reflexivity. Qed.

Lemma cwd_set_cwd p w : cwd (set_cwd p w) = p.
Proof. reflexivity. Qed.

Lemma fs_configure l f w : fs (configure l f w) = fs w.
Proof. unfold configure. now destruct (log_handlers w). Qed.

Lemma cwd_configure l f w : cwd (configure l f w) = cwd w.
Proof. unfold configure. now destruct (log_handlers w). Qed.

Lemma sessions_configure l f w : sessions (configure l f w) = sessions w.
Proof. unfold configure. now destruct (log_handlers w). Qed.

Create HintDb world.
Create Rewrite HintDb world.
Lemma log_level_emit r w : log_level (emit r w) = log_level w.
Proof. apply (logged_emit r w). Qed.

#[global] Hint Rewrite fs_emit cwd_emit sessions_emit net_emit
  fs_set_fs cwd_set_fs fs_set_cwd cwd_set_cwd
  fs_configure cwd_configure sessions_configure : world.

(** Unfolds the monad and the calls of one method body, then computes as
    far as the file system allows. *)
Ltac unfold_py :=
  unfold bind, _log_declare_entry, _log_declare_return, debug, info, warning,
    critical, Logger_log, os_path_isdir, os_mkdir, os_chdir, ret, raise.

Ltac simpl_world :=
  cbn -[stat resolve lookup add_dir emit set_fs set_cwd];
  autorewrite with world.
#[global] Hint Resolve logged_refl logged_emit : world.

Section Properties.

Context {libs : Libraries}.

(** C3: in a dry run [Controller.descend] returns [True] for every name and
    either value of [ignore_exists], and the directory tree and the current
    directory are what they were (the run only writes log records). *)
Theorem descend_dryrun (c : Controller) (lg : Logger) (nm : string)
    (ignore_exists : bool) (w : World) :
  _log c = Some lg ->
  _dryrun c = true ->
  exists w', Controller_descend c nm ignore_exists w = (inr (VBool true), w')
             /\ logged w w'.
Proof.
  intros Hlog Hdry.
  unfold Controller_descend, _is_dryrun. rewrite Hlog, Hdry.
  cbn. eexists; split; [reflexivity|].
  eauto using logged_trans with world.
Qed.

(** ** The directory tree *)

Lemma assoc_app {A : Type} (k : string) (l l' : list (string * A)) :
  assoc k (l ++ l') =
  match assoc k l with Some v => Some v | None => assoc k l' end.
Proof.
  induction l as [|[k' v] l IH]; cbn; [reflexivity|].
  now destruct (String.eqb k k').
Qed.

Lemma assoc_replace {A : Type} (k c : string) (v : A) (l : list (string * A)) :
  assoc k (replace c v l) =
  if String.eqb k c then match assoc c l with Some _ => Some v | None => None end
  else assoc k l.
Proof.
  induction l as [|[k' v'] l IH]; cbn.
  - now destruct (String.eqb k c).
  - destruct (String.eqb c k') eqn:Eck; cbn.
    + apply String.eqb_eq in Eck; subst k'.
      now destruct (String.eqb k c).
    + rewrite IH. destruct (String.eqb k c) eqn:Ekc.
      * apply String.eqb_eq in Ekc; subst k. now rewrite Eck.
      * reflexivity.
Qed.

Lemma lookup_app (e : entry) (p q : path) :
  lookup e (p ++ q) =
  match lookup e p with Some e' => lookup e' q | None => None end.
Proof.
  revert e; induction p as [|c p IH]; intros e; cbn; [reflexivity|].
  destruct e as [t|ch]; [reflexivity|].
  destruct (assoc c ch); [apply IH | reflexivity].
Qed.

(** Whatever exists sits in a directory. *)
Lemma lookup_parent (e : entry) (q : path) (c : string) (x : entry) :
  lookup e (q ++ [c]) = Some x -> is_dir (lookup e q) = true.
Proof.
  rewrite lookup_app. destruct (lookup e q) as [[t|ch]|]; cbn; congruence.
Qed.

Lemma removelast_is_dir (e : entry) (p : path) :
  is_dir (lookup e p) = true -> is_dir (lookup e (removelast p)) = true.
Proof.
  intros H. destruct p as [|c p] using rev_ind; [exact H|].
  rewrite removelast_last.
  destruct (lookup e (p ++ [c])) eqn:E; [|discriminate].
  eapply lookup_parent; eauto.
Qed.

Lemma add_dir_lookup (p : path) : forall e e',
  add_dir e p = Some e' -> lookup e' p = Some (Dir []).
Proof.
  induction p as [|c p IH]; intros e e' H; cbn in H; [discriminate|].
  destruct e as [t|ch]; [discriminate|].
  destruct p as [|c' p].
  - destruct (assoc c ch) eqn:E; [discriminate|].
    injection H as <-. cbn. rewrite assoc_app, E. cbn.
    now rewrite String.eqb_refl.
  - destruct (assoc c ch) as [e0|] eqn:E; [|discriminate].
    destruct (add_dir e0 (c' :: p)) as [e1|] eqn:E1; [|discriminate].
    injection H as <-.
    change (lookup (Dir (replace c e1 ch)) (c :: c' :: p))
      with (match assoc c (replace c e1 ch) with
            | Some x => lookup x (c' :: p) | None => None end).
    rewrite assoc_replace, String.eqb_refl, E. now apply (IH e0).
Qed.

(** A new directory takes no directory away. *)
Lemma add_dir_keeps_dirs (p : path) : forall e e' q,
  add_dir e p = Some e' ->
  is_dir (lookup e q) = true -> is_dir (lookup e' q) = true.
Proof.
  induction p as [|c p IH]; intros e e' q H Hq; cbn in H; [discriminate|].
  destruct e as [t|ch]; [discriminate|].
  destruct q as [|k q].
  - destruct p; destruct (assoc c ch) as [e0|]; try discriminate.
    + now injection H as <-.
    + destruct (add_dir e0 (s :: p)); [now injection H as <-|discriminate].
  - cbn in Hq. destruct (assoc k ch) as [ek|] eqn:Ek; [|discriminate].
    destruct p as [|c' p].
    + destruct (assoc c ch) eqn:E; [discriminate|].
      injection H as <-. cbn. now rewrite assoc_app, Ek.
    + destruct (assoc c ch) as [e0|] eqn:E; [|discriminate].
      destruct (add_dir e0 (c' :: p)) as [e1|] eqn:E1; [|discriminate].
      injection H as <-. cbn. rewrite assoc_replace, E.
      destruct (String.eqb k c) eqn:Ekc.
      * apply String.eqb_eq in Ekc; subst k.
        rewrite E in Ek; injection Ek as <-. now apply (IH e0).
      * now rewrite Ek.
Qed.


(** ** Path resolution *)


Lemma walk_add_dir (root root' : entry) (p0 : path) (comps : list string) :
  add_dir root p0 = Some root' ->
  forall cur p, walk root cur comps = inr p -> walk root' cur comps = inr p.
Proof.
  intros Hadd. induction comps as [|c rest IH]; intros cur p H; [exact H|].
  cbn [walk] in *.
  destruct (lookup root cur) as [[t|ch]|] eqn:Ecur; try discriminate.
  assert (D : is_dir (lookup root' cur) = true)
    by (eapply add_dir_keeps_dirs; [eassumption | now rewrite Ecur]).
  destruct (lookup root' cur) as [[t'|ch']|]; try discriminate.
  destruct (Nat.ltb NAME_MAX (String.length c)); [discriminate|].
  now apply IH.
Qed.


(** A name that resolves is one Python and the system accept, and
    resolving it is the walk of its components. *)
Lemma resolve_inr (root : entry) (cur : path) (nm : string) (p : path) :
  resolve root cur nm = inr p ->
  nm <> "" /\ has_nul nm = false
  /\ walk root (if is_abs nm then [] else cur) (components nm) = inr p.
Proof.
  unfold resolve.
  destruct (String.eqb nm "") eqn:Enm; [discriminate|].
  apply String.eqb_neq in Enm.
  destruct (has_nul nm); [discriminate|].
  destruct (Nat.leb PATH_MAX (String.length nm)); [discriminate|].
  auto.
Qed.

Lemma stat_inr (root : entry) (cur : path) (nm : string) (p : path)
    (e : entry) :
  stat root cur nm = inr (p, e) -> has_nul nm = false.
Proof.
  unfold stat. destruct (resolve root cur nm) as [err|p'] eqn:Hres;
    [discriminate|].
  intros _. now apply resolve_inr in Hres.
Qed.

Lemma walk_components (root : entry) (comps : list string) : forall cur p,
  walk root cur comps = inr p ->
  forallb (fun c => Nat.leb (String.length c) NAME_MAX) comps = true.
Proof.
  induction comps as [|c rest IH]; intros cur p H; [reflexivity|].
  cbn [walk] in H. cbn [forallb].
  destruct (lookup root cur) as [[t|ch]|]; try discriminate.
  destruct (Nat.ltb_spec NAME_MAX (String.length c)) as [|Hle];
    [discriminate|].
  apply Nat.leb_le in Hle. rewrite Hle. exact (IH _ _ H).
Qed.

(** Only an accepted name resolves. *)
Lemma resolve_accepted (root : entry) (cur : path) (nm : string) (p : path) :
  resolve root cur nm = inr p -> accepted nm = true.
Proof.
  unfold resolve, accepted.
  destruct (String.eqb nm ""); [discriminate|].
  destruct (has_nul nm); [discriminate|].
  destruct (Nat.leb_spec PATH_MAX (String.length nm)) as [|Hlt];
    [discriminate|].
  intros H. apply Nat.ltb_lt in Hlt. rewrite Hlt.
  now rewrite (walk_components _ _ _ _ H).
Qed.


(** The new directory is where the name resolves to afterwards. *)
Lemma stat_after_add_dir (root root' : entry) (cur : path) (nm : string)
    (p : path) :
  resolve root cur nm = inr p -> add_dir root p = Some root' ->
  stat root' cur nm = inr (p, Dir []).
Proof.
  intros Hres Hadd. unfold stat.
  assert (Hres' : resolve root' cur nm = inr p).
  { unfold resolve in *. destruct (String.eqb nm ""); [discriminate|].
    destruct (has_nul nm); [discriminate|].
    destruct (Nat.leb PATH_MAX (String.length nm)); [discriminate|].
    eapply walk_add_dir; eassumption. }
  rewrite Hres'. now rewrite (add_dir_lookup _ _ _ Hadd).
Qed.

Lemma stat_resolve (root : entry) (cur : path) (nm : string) (p : path)
    (e : entry) :
  stat root cur nm = inr (p, e) ->
  resolve root cur nm = inr p /\ lookup root p = Some e.
Proof.
  unfold stat. destruct (resolve root cur nm) as [err|p']; [discriminate|].
  destruct (lookup root p') as [[t|ch]|] eqn:E; try discriminate.
  - destruct (trailing_slash nm); [discriminate|].
    intros [= <- <-]. auto.
  - intros [= <- <-]. auto.
Qed.


(** ** [Controller.descend] and [Controller.ascend] on a live run *)


(** C10: in a live run, a name that is a regular file makes
    [Controller.descend] raise [FileExistsError] (an [OSError], from
    [mkdir]) for either value of [ignore_exists]; no boolean is returned,
    and the tree and the current directory are untouched. *)
Theorem descend_on_file (c : Controller) (lg : Logger) (nm : string)
    (ignore_exists : bool) (w : World) (p : path) (t : string) :
  _log c = Some lg ->
  _dryrun c = false ->
  stat (fs w) (cwd w) nm = inr (p, File t) ->
  exists w', Controller_descend c nm ignore_exists w = (inl (OSError EEXIST), w')
             /\ is_OSError (OSError EEXIST) = true
             /\ logged w w'.
Proof.
  intros Hlog Hdry Hstat.
  destruct (stat_resolve _ _ _ _ _ Hstat) as [Hres Hlook].
  pose proof (stat_inr _ _ _ _ _ Hstat) as Hnul.
  unfold Controller_descend, _is_dryrun. rewrite Hlog, Hdry.
  unfold_py. rewrite Hnul. autorewrite with world. rewrite Hstat.
  simpl_world. rewrite Hres, Hlook.
  eexists. split; [reflexivity|]. split; [reflexivity|].
  eauto using logged_trans with world.
Qed.

Lemma split_no_slash (s : string) :
  has_slash s = false -> split_slash s = [s].
Proof.
  induction s as [|a s IH]; cbn; [reflexivity|].
  intros H. apply orb_false_iff in H as [Ha Hs].
  now rewrite Ha, (IH Hs).
Qed.

Lemma simple_name_spec (nm : string) :
  simple_name nm = true ->
  has_slash nm = false /\ nm <> "" /\ nm <> "." /\ nm <> ".."
  /\ has_nul nm = false /\ String.length nm <= NAME_MAX.
Proof.
  unfold simple_name, nonempty. intros H.
  repeat (apply andb_true_iff in H as [H ?]).
  repeat match goal with
         | H : negb _ = true |- _ => apply negb_true_iff in H
         | H : String.eqb _ _ = false |- _ => apply String.eqb_neq in H
         | H : Nat.leb _ _ = true |- _ => apply Nat.leb_le in H
         end.
  auto 10.
Qed.

(** Resolving one ordinary component: a step from the current directory,
    if that is a directory. *)
Lemma resolve_simple (root : entry) (cur : path) (nm : string) :
  simple_name nm = true ->
  resolve root cur nm =
  match lookup root cur with
  | Some (Dir _) => inr (cur ++ [nm])
  | Some (File _) => inl ENOTDIR
  | None => inl ENOENT
  end.
Proof.
  intros H.
  destruct (simple_name_spec nm H) as (Hslash & Hne & Hdot & Hdots & Hnul & Hlen).
  unfold resolve, components, step.
  apply String.eqb_neq in Hne, Hdot, Hdots. rewrite Hne, Hnul.
  destruct (Nat.leb_spec PATH_MAX (String.length nm)) as [Hbig|_];
    [unfold PATH_MAX, NAME_MAX in *; lia|].
  rewrite (split_no_slash nm Hslash). cbn [filter]. unfold nonempty.
  rewrite Hne. cbn [negb].
  assert (Habs : is_abs nm = false).
  { destruct nm as [|a s]; [reflexivity|]. cbn in Hslash |- *.
    now apply orb_false_iff in Hslash as [-> _]. }
  rewrite Habs. cbn [walk].
  destruct (lookup root cur) as [[t|ch]|]; try reflexivity.
  destruct (Nat.ltb_spec NAME_MAX (String.length nm)) as [Hbig|_]; [lia|].
  unfold step. now rewrite Hdot, Hdots.
Qed.

Lemma stat_dotdot (root : entry) (cur : path) :
  is_dir (lookup root cur) = true ->
  exists ch, stat root cur ".." = inr (removelast cur, Dir ch).
Proof.
  intros H. pose proof (removelast_is_dir _ _ H) as H'.
  unfold stat, resolve. cbn.
  destruct (lookup root cur) as [[t|ch]|]; try discriminate. cbn.
  destruct (lookup root (removelast cur)) as [[t'|ch']|]; try discriminate.
  eauto.
Qed.

(** Where a live [descend] that returned [True] has left the process. *)
Lemma descend_true_inv (c : Controller) (lg : Logger) (nm : string)
    (ignore_exists : bool) (w w1 : World) :
  _log c = Some lg ->
  _dryrun c = false ->
  Controller_descend c nm ignore_exists w = (inr (VBool true), w1) ->
  resolve (fs w) (cwd w) nm = inr (cwd w1)
  /\ is_dir (lookup (fs w1) (cwd w1)) = true.
Proof.
  intros Hlog Hdry.
  unfold Controller_descend, _is_dryrun. rewrite Hlog, Hdry.
  unfold_py.
  destruct (has_nul nm) eqn:Hnul; [simpl_world; discriminate|].
  autorewrite with world.
  destruct (stat (fs w) (cwd w) nm) as [err|[p [t|ch]]] eqn:Hstat.
  1, 2: simpl_world;
    destruct (resolve (fs w) (cwd w) nm) as [err'|p'] eqn:Hres;
      [discriminate|];
    destruct (lookup (fs w) p') eqn:Hlook; [discriminate|];
    destruct (add_dir (fs w) p') as [root'|] eqn:Hadd; [|discriminate];
    simpl_world; rewrite (stat_after_add_dir _ _ _ _ _ Hres Hadd);
    intros [= <-]; simpl_world;
    rewrite (add_dir_lookup _ _ _ Hadd); auto.
  destruct ignore_exists; simpl_world; [|discriminate].
  rewrite Hstat. intros [= <-]. simpl_world.
  destruct (stat_resolve _ _ _ _ _ Hstat) as [Hres Hlook].
  now rewrite Hlook.
Qed.


(** ** The delegation chain *)

(** [GenericRipper.fetch] with a parent makes the parent's call with the
    same arguments in the same world and passes on the parent's exception,
    but it answers [None] whatever page or tree the parent returned. *)
Theorem fetch_forwards_returns_None (nm : string) (p : Ripper) (url : string)
    (tree : bool) (w : World) :
  fetch (Plain nm (Some p)) url tree w =
  match fetch p url tree w with
  | (inr _, w') => (inr VNone, w')
  | (inl e, w') => (inl e, w')
  end.
Proof. reflexivity. Qed.

(** [GenericRipper.descend] with a parent makes the parent's call with the
    same arguments in the same world and passes on the parent's exception,
    but it answers [None] whatever boolean the parent returned. *)
Theorem descend_forwards_returns_None (nm : string) (p : Ripper)
    (dir : string) (ignore_exists : bool) (w : World) :
  descend (Plain nm (Some p)) dir ignore_exists w =
  match descend p dir ignore_exists w with
  | (inr _, w') => (inr VNone, w')
  | (inl e, w') => (inl e, w')
  end.
Proof. reflexivity. Qed.

(** C7, as the code has it: a plain [GenericRipper] whose parent is [None]
    raises [AttributeError] (the attribute lookup on [None]) from [fetch],
    [descend] and [ascend], and leaves the world as it was. *)
Theorem no_parent_raises_AttributeError (nm url dir : string)
    (tree ignore_exists : bool) (w : World) :
  fetch (Plain nm None) url tree w
    = (inl (AttributeError "NoneType" "fetch"), w)
  /\ descend (Plain nm None) dir ignore_exists w
    = (inl (AttributeError "NoneType" "descend"), w)
  /\ ascend (Plain nm None) w
    = (inl (AttributeError "NoneType" "ascend"), w)
  /\ exn_name (AttributeError "NoneType" "fetch") = "AttributeError".
Proof. repeat split. Qed.

(** ** Logging set-up *)

(** C8: [__init_log], called in a process whose logging is not configured
    yet, turns the numeric level into the threshold of the root logger as
    0 to 51, 1 to CRITICAL, 2 to ERROR, 3 to WARNING, 4 to INFO and 5 to
    DEBUG; 51 lies strictly above every level [logging] defines, so no
    record at such a level passes it. *)
Theorem init_log_levels (logfile : option string) (nm : string) (w : World) :
  log_handlers w = false ->
  let level_after n :=
    let (r, w') := _Controller__init_log n logfile nm w in
    match r with inr _ => Some (log_level w') | inl _ => None end in
  level_after 0%Z = Some 51%Z
  /\ Forall (fun l => (l < 51)%Z) builtin_levels
  /\ level_after 1%Z = Some CRITICAL
  /\ level_after 2%Z = Some ERROR
  /\ level_after 3%Z = Some WARNING
  /\ level_after 4%Z = Some INFO
  /\ level_after 5%Z = Some DEBUG.
Proof.
  intros Hfresh. unfold _Controller__init_log, logging_basicConfig, configure.
  cbn. rewrite Hfresh. cbn. unfold emit; cbn.
  repeat split; repeat constructor.
Qed.

(** ** [Controller.fetch] *)

(** C9: with [tree] false [Controller.fetch] returns the very response the
    session's GET gave, whatever its status code and body: nothing is
    checked and nothing raised. *)
Theorem fetch_raw_response (c : Controller) (lg : Logger) (s : Session)
    (url : string) (r : Response) (w : World) :
  _log c = Some lg ->
  _session c = Some s ->
  net w url = inr r ->
  exists w', Controller_fetch c url false w = (inr (VResponse r), w')
             /\ logged w w'.
Proof.
  intros Hlog Hses Hnet.
  unfold Controller_fetch. rewrite Hlog, Hses.
  unfold_py. unfold Session_get. autorewrite with world. rewrite Hnet.
  eexists. split; [reflexivity|].
  eauto using logged_trans with world.
Qed.

(** ** Configuration *)

Lemma parse_config_ok (c : Controller) (lg : Logger) (conffile : string)
    (w : World) (p : path) (t : string) (v : value) :
  _log c = Some lg ->
  stat (fs w) (cwd w) conffile = inr (p, File t) ->
  json_load t = inr v ->
  exists w', _Controller__parse_config c conffile w = (inr v, w')
             /\ logged w w'.
Proof.
  intros Hlog Hstat Hjson.
  unfold _Controller__parse_config. rewrite Hlog.
  unfold_py. unfold attempt, open_r. autorewrite with world. rewrite Hstat.
  simpl_world. rewrite Hjson.
  eexists. split; [reflexivity|].
  eauto using logged_trans with world.
Qed.

Lemma parse_config_fails (c : Controller) (lg : Logger) (conffile : string)
    (w : World) :
  _log c = Some lg ->
  config_fails (fs w) (cwd w) conffile ->
  exists w', _Controller__parse_config c conffile w = (inr VNone, w')
             /\ logged w w'.
Proof.
  intros Hlog Hfail.
  unfold _Controller__parse_config. rewrite Hlog.
  unfold_py. unfold attempt, open_r. autorewrite with world.
  destruct Hfail as [Hopen | (p & t & m & Hstat & Hjson)].
  - destruct (stat (fs w) (cwd w) conffile) as [e|[p [t|ch]]] eqn:Hstat.
    + simpl_world. eexists. split; [reflexivity|].
      eauto using logged_trans with world.
    + now destruct (Hopen p t).
    + simpl_world. eexists. split; [reflexivity|].
      eauto using logged_trans with world.
  - rewrite Hstat. simpl_world. rewrite Hjson. simpl_world.
    eexists. split; [reflexivity|].
    eauto using logged_trans with world.
Qed.

(** [init] on a configuration that fails: [exit(1)], with no session made. *)
Lemma init_exits (a : Args) (lvl : Z) (w : World) :
  loglevel_to_level (loglevel a) = Some lvl ->
  config_fails (fs w) (cwd w) (config a) ->
  exists c' w',
    Controller_init (Controller_new (Some a), w)
      = (inl (SystemExit 1), (c', w'))
    /\ _session c' = None
    /\ sessions w' = sessions w.
Proof.
  intros Hlvl Hfail.
  unfold Controller_init, _Controller__init_log, bind.
  cbn -[_Controller__parse_config emit configure loglevel_to_level].
  rewrite Hlvl.
  cbn -[_Controller__parse_config emit configure].
  destruct (dryrun a); cbn -[_Controller__parse_config emit configure].
  all: unfold lift_world at 1; cbn [fst snd].
  all: match goal with
       | |- context [_Controller__parse_config ?c ?f ?w] =>
           destruct (parse_config_fails c (mkLogger "root") f w)
             as (w2 & Hp & Hl);
           [reflexivity | autorewrite with world; exact Hfail | rewrite Hp]
       end.
  all: cbn -[emit configure].
  all: do 2 eexists; split; [reflexivity|]; split; [reflexivity|].
  all: autorewrite with world; destruct Hl as (_ & _ & -> & _);
    now autorewrite with world.
Qed.

(** C6: [__parse_config] returns what [json.load] parsed when the file
    opens and holds JSON.  When the file cannot be opened or its text is not
    JSON it returns [None], its failure result, having made no session; and
    [init] on such a configuration raises [SystemExit(1)] with [_session]
    still [None] and no session created. *)
Theorem parse_config_or_exit (c : Controller) (lg : Logger) (a : Args)
    (lvl : Z) (w : World) :
  _log c = Some lg ->
  loglevel_to_level (loglevel a) = Some lvl ->
  (forall p t v,
      stat (fs w) (cwd w) (config a) = inr (p, File t) ->
      json_load t = inr v ->
      exists w', _Controller__parse_config c (config a) w = (inr v, w')
                 /\ logged w w')
  /\ (config_fails (fs w) (cwd w) (config a) ->
      (exists w', _Controller__parse_config c (config a) w = (inr VNone, w')
                  /\ logged w w')
      /\ (exists c' w',
            Controller_init (Controller_new (Some a), w)
              = (inl (SystemExit 1), (c', w'))
            /\ _session c' = None
            /\ sessions w' = sessions w)).
Proof.
  intros Hlog Hlvl. split.
  - intros p t v. now apply parse_config_ok with (lg := lg).
  - intros Hfail. split.
    + now apply parse_config_fails with (lg := lg).
    + now apply init_exits with (lvl := lvl).
Qed.

(** ** Outside the intended use *)

(** [GenericRipper.ascend] with a parent makes the parent's call and passes
    on its exception; like the Controller's own [ascend] it answers
    [None]. *)
Lemma ascend_forwards (nm : string) (p : Ripper) (w : World) :
  ascend (Plain nm (Some p)) w =
  match ascend p w with
  | (inr _, w') => (inr VNone, w')
  | (inl e, w') => (inl e, w')
  end.
Proof. reflexivity. Qed.

(** X1: Before [init] the Controller has no log: [fetch], [descend] and [ascend]
    raise [AttributeError] at their first log call and change nothing. *)
Lemma before_init_raises (a : option Args) (url dir : string)
    (tree ignore_exists : bool) (w : World) :
  Controller_fetch (Controller_new a) url tree w
    = (inl (AttributeError "NoneType" "debug"), w)
  /\ Controller_descend (Controller_new a) dir ignore_exists w
    = (inl (AttributeError "NoneType" "debug"), w)
  /\ Controller_ascend (Controller_new a) w
    = (inl (AttributeError "NoneType" "debug"), w).
Proof. repeat split. Qed.

(** X2: A [loglevel] outside 0..5 takes no branch of [__init_log], which then
    raises [UnboundLocalError] before anything is configured. *)
Lemma init_log_out_of_range (loglevel : Z) (logfile : option string)
    (nm : string) (w : World) :
  (loglevel < 0 \/ 5 < loglevel)%Z ->
  _Controller__init_log loglevel logfile nm w
    = (inl (UnboundLocalError "level"), w).
Proof.
  intros H. unfold _Controller__init_log, loglevel_to_level.
  repeat match goal with
         | |- context [(loglevel =? ?k)%Z] =>
             destruct (Z.eqb_spec loglevel k); [lia|]
         end.
  reflexivity.
Qed.

(** X3: A configuration file holding the JSON text [null] parses to [None],
    which [init] takes for a failure: it exits with status 1 although the
    file is valid JSON. *)
Lemma init_exits_on_null (a : Args) (lvl : Z) (w : World) (p : path)
    (t : string) :
  loglevel_to_level (loglevel a) = Some lvl ->
  stat (fs w) (cwd w) (config a) = inr (p, File t) ->
  json_load t = inr VNone ->
  exists c' w',
    Controller_init (Controller_new (Some a), w)
      = (inl (SystemExit 1), (c', w'))
    /\ _session c' = None
    /\ sessions w' = sessions w.
Proof.
  intros Hlvl Hstat Hjson.
  unfold Controller_init, _Controller__init_log, bind.
  cbn -[_Controller__parse_config emit configure loglevel_to_level].
  rewrite Hlvl.
  cbn -[_Controller__parse_config emit configure].
  destruct (dryrun a); cbn -[_Controller__parse_config emit configure].
  all: unfold lift_world at 1; cbn [fst snd].
  all: match goal with
       | |- context [_Controller__parse_config ?c ?f ?w] =>
           destruct (parse_config_ok c (mkLogger "root") f w p t VNone)
             as (w2 & Hp & Hl);
           [reflexivity | autorewrite with world; exact Hstat | exact Hjson
           | rewrite Hp]
       end.
  all: cbn -[emit configure].
  all: do 2 eexists; split; [reflexivity|]; split; [reflexivity|].
  all: autorewrite with world; destruct Hl as (_ & _ & -> & _);
    now autorewrite with world.
Qed.

End Properties.

(** * Beyond the single calls: chains, sequences of calls, [init] *)

Section Chains.

Context {libs : Libraries}.

(** Induction along the chain of parents. *)
Lemma Ripper_chain_ind (P : Ripper -> Prop) :
  (forall c, P (Root c)) ->
  (forall nm, P (Plain nm None)) ->
  (forall nm p, P p -> P (Plain nm (Some p))) ->
  forall r, P r.
Proof.
  intros HRoot HNone HSome. fix IH 1.
  intros [nm [p|] | c].
  - apply HSome, IH.
  - apply HNone.
  - apply HRoot.
Qed.

Lemma through_twice (nm : string) (p : Ripper) (res : exn + value) :
  match through p res with
  | inr _ => inr VNone
  | inl e => inl e
  end = through (Plain nm (Some p)) res.
Proof. destruct p, res; reflexivity. Qed.

(** X4: However long the chain of parents, a call on a ripper whose chain ends
    in a Controller does to the world exactly what the Controller's own
    method does, raises what it raises, and (below the Controller) returns
    [None] where it returned a value. *)
Theorem calls_reach_controller (r : Ripper) (c : Controller) (w : World) :
  controller_of r = Some c ->
  (forall url tree,
      fetch r url tree w
      = (through r (fst (Controller_fetch c url tree w)),
         snd (Controller_fetch c url tree w)))
  /\ (forall nm ignore_exists,
      descend r nm ignore_exists w
      = (through r (fst (Controller_descend c nm ignore_exists w)),
         snd (Controller_descend c nm ignore_exists w)))
  /\ ascend r w
     = (through r (fst (Controller_ascend c w)), snd (Controller_ascend c w)).
Proof.
  revert c w. induction r as [c0 | nm | nm p IH] using Ripper_chain_ind;
    intros c w Hc; cbn in Hc.
  - injection Hc as ->. cbn.
    repeat split; intros;
      match goal with |- ?m = _ => now destruct m end.
  - discriminate.
  - destruct (IH c w Hc) as (Hf & Hd & Ha).
    repeat split; intros; cbn -[through]; unfold bind, ret.
    + rewrite Hf. rewrite <- through_twice.
      match goal with
      | |- context [through p ?x] => now destruct (through p x)
      end.
    + rewrite Hd. rewrite <- through_twice.
      match goal with
      | |- context [through p ?x] => now destruct (through p x)
      end.
    + rewrite Ha. rewrite <- through_twice.
      match goal with
      | |- context [through p ?x] => now destruct (through p x)
      end.
Qed.

(** X5: However long the chain of parents, when it ends in [None] instead of a
    Controller every call raises [AttributeError] and nothing happens. *)
Theorem chain_without_controller (r : Ripper) (w : World) :
  controller_of r = None ->
  (forall url tree,
      fetch r url tree w = (inl (AttributeError "NoneType" "fetch"), w))
  /\ (forall nm ignore_exists,
      descend r nm ignore_exists w
      = (inl (AttributeError "NoneType" "descend"), w))
  /\ ascend r w = (inl (AttributeError "NoneType" "ascend"), w).
Proof.
  revert w. induction r as [c0 | nm | nm p IH] using Ripper_chain_ind;
    intros w Hc; cbn in Hc.
  - discriminate.
  - repeat split.
  - destruct (IH w Hc) as (Hf & Hd & Ha).
    repeat split; intros; cbn; unfold bind.
    + now rewrite Hf.
    + now rewrite Hd.
    + now rewrite Ha.
Qed.

(** ** What never touches the directory tree *)

Lemma keeps_ret {A : Type} (a : A) : keeps_tree (ret a).
Proof. intro w; split; reflexivity. Qed.

Lemma keeps_raise {A : Type} (e : exn) : keeps_tree (@raise World A e).
Proof. intro w; split; reflexivity. Qed.

Lemma keeps_bind {A B : Type} (m : M World A) (k : A -> M World B) :
  keeps_tree m -> (forall a, keeps_tree (k a)) -> keeps_tree (bind m k).
Proof.
  intros Hm Hk w. unfold bind. specialize (Hm w).
  destruct (m w) as [[e|a] w1]; cbn in *; [exact Hm|].
  destruct (Hk a w1) as [F C], Hm as [F1 C1]. split; congruence.
Qed.

Lemma keeps_log (attr : string) (lvl : Z) (log : option Logger) (m : value)
    (a : list value) :
  keeps_tree (Logger_log attr lvl log m a).
Proof.
  intro w. destruct log; cbn; split; now autorewrite with world.
Qed.

Lemma keeps_Session_get (s : option Session) (url : string) :
  keeps_tree (Session_get s url).
Proof. intro w. destruct s; cbn; split; reflexivity. Qed.

Lemma keeps_of_result {A : Type} (r : exn + A) : keeps_tree (of_result r).
Proof. intro w; split; reflexivity. Qed.

Create HintDb keeps.
#[local] Hint Resolve keeps_ret keeps_raise keeps_Session_get keeps_of_result
  : keeps.
#[local] Hint Extern 1 (keeps_tree (debug _ _ _)) => apply keeps_log : keeps.
#[local] Hint Extern 1 (keeps_tree (info _ _ _)) => apply keeps_log : keeps.
#[local] Hint Extern 1 (keeps_tree (warning _ _ _)) => apply keeps_log : keeps.
#[local] Hint Extern 1 (keeps_tree (critical _ _ _)) => apply keeps_log : keeps.
#[local] Hint Extern 1 (keeps_tree (_log_declare_entry _ _)) =>
  apply keeps_log : keeps.
#[local] Hint Extern 1 (keeps_tree (_log_declare_return _ _)) =>
  apply keeps_log : keeps.

(** Proves [keeps_tree] of a method body statement by statement. *)
Ltac keeps :=
  repeat first
    [ apply keeps_bind; [|intro]
    | match goal with
      | |- keeps_tree (if ?b then _ else _) => destruct b
      end
    | solve [auto with keeps] ].

(** [Controller.fetch] leaves the tree and the current directory alone on
    every receiver, whether it returns or raises. *)
Lemma Controller_fetch_keeps_tree (c : Controller) (url : string)
    (tree : bool) :
  keeps_tree (Controller_fetch c url tree).
Proof. unfold Controller_fetch. keeps. Qed.

Lemma dry_descend_keeps_tree (c : Controller) (nm : string)
    (ignore_exists : bool) :
  _dryrun c = true -> keeps_tree (Controller_descend c nm ignore_exists).
Proof.
  intros Hdry. unfold Controller_descend, _is_dryrun. rewrite Hdry. keeps.
Qed.

Lemma dry_ascend_keeps_tree (c : Controller) :
  _dryrun c = true -> keeps_tree (Controller_ascend c).
Proof.
  intros Hdry. unfold Controller_ascend, _is_dryrun. rewrite Hdry. keeps.
Qed.

Lemma dry_call_keeps_tree (r : Ripper) (cl : call) :
  (forall c, controller_of r = Some c -> _dryrun c = true) ->
  keeps_tree (do_call r cl).
Proof.
  induction r as [c0 | nm | nm p IH] using Ripper_chain_ind; intros Hdry.
  - specialize (Hdry c0 eq_refl). destruct cl; cbn.
    + apply Controller_fetch_keeps_tree.
    + now apply dry_descend_keeps_tree.
    + now apply dry_ascend_keeps_tree.
  - destruct cl; cbn; apply keeps_raise.
  - specialize (IH Hdry).
    destruct cl as [url tree | dir ie |]; cbn.
    + apply keeps_bind; [exact IH | intro; apply keeps_ret].
    + apply keeps_bind; [exact IH | intro; apply keeps_ret].
    + apply keeps_bind; [exact IH | intro; apply keeps_ret].
Qed.

(** X6: In a dry run no sequence of [fetch], [descend] and [ascend] calls, made
    on the Controller or anywhere below it, changes the directory tree or
    the current directory, wherever the sequence stops. *)
Theorem dry_run_keeps_tree (r : Ripper) (cs : list call) (w : World) :
  (forall c, controller_of r = Some c -> _dryrun c = true) ->
  fs (snd (do_calls r cs w)) = fs w /\ cwd (snd (do_calls r cs w)) = cwd w.
Proof.
  intros Hdry. revert w.
  change (keeps_tree (do_calls r cs)).
  induction cs as [|cl cs IH]; cbn [do_calls].
  - apply keeps_ret.
  - apply keeps_bind; [now apply dry_call_keeps_tree|].
    intros v. apply keeps_bind; [exact IH|]. intros vs. apply keeps_ret.
Qed.

(** ** Live traversal *)



Lemma ascend_from_dir (c : Controller) (lg : Logger) (w : World) :
  _log c = Some lg -> _dryrun c = false ->
  is_dir (lookup (fs w) (cwd w)) = true ->
  exists w', Controller_ascend c w = (inr VNone, w')
             /\ fs w' = fs w
             /\ cwd w' = removelast (cwd w).
Proof.
  intros Hlog Hdry Hdir.
  destruct (stat_dotdot _ _ Hdir) as [ch Hup].
  unfold Controller_ascend, _is_dryrun. rewrite Hlog, Hdry.
  unfold_py. autorewrite with world. rewrite Hup.
  eexists. split; [reflexivity|]. simpl_world. auto.
Qed.

Lemma firstn_removelast (k : nat) (l : path) :
  firstn (length (removelast l) - k) (removelast l)
  = firstn (length l - S k) l.
Proof.
  rewrite removelast_firstn_len, firstn_firstn, length_firstn.
  f_equal. lia.
Qed.

Lemma ascends_from_dir (c : Controller) (lg : Logger) (k : nat) :
  _log c = Some lg -> _dryrun c = false ->
  forall w, is_dir (lookup (fs w) (cwd w)) = true ->
  exists w', do_calls (Root c) (repeat CallAscend k) w
               = (inr (repeat VNone k), w')
             /\ fs w' = fs w
             /\ cwd w' = firstn (length (cwd w) - k) (cwd w).
Proof.
  intros Hlog Hdry. induction k as [|k IH]; intros w Hdir.
  - exists w. cbn. rewrite Nat.sub_0_r, firstn_all. auto.
  - destruct (ascend_from_dir c lg w Hlog Hdry Hdir) as (w1 & Hup & Hfs & Hcwd).
    assert (Hdir1 : is_dir (lookup (fs w1) (cwd w1)) = true)
      by (rewrite Hfs, Hcwd; now apply removelast_is_dir).
    destruct (IH w1 Hdir1) as (w' & Hrun & Hfs' & Hcwd').
    exists w'. cbn [repeat do_calls do_call ascend]. unfold bind.
    rewrite Hup, Hrun. cbn. repeat split; [congruence|].
    rewrite Hcwd', Hcwd. apply firstn_removelast.
Qed.




(** A new directory leaves every file as it is. *)
Lemma add_dir_keeps_files (p : path) : forall e e' q t,
  add_dir e p = Some e' ->
  lookup e q = Some (File t) -> lookup e' q = Some (File t).
Proof.
  induction p as [|c p IH]; intros e e' q t H Hq; cbn in H; [discriminate|].
  destruct e as [t0|ch]; [discriminate|].
  destruct q as [|k q]; [discriminate|].
  cbn in Hq. destruct (assoc k ch) as [ek|] eqn:Ek; [|discriminate].
  destruct p as [|c' p].
  - destruct (assoc c ch) eqn:E; [discriminate|].
    injection H as <-. cbn. now rewrite assoc_app, Ek.
  - destruct (assoc c ch) as [e0|] eqn:E; [|discriminate].
    destruct (add_dir e0 (c' :: p)) as [e1|] eqn:E1; [|discriminate].
    injection H as <-. cbn. rewrite assoc_replace, E.
    destruct (String.eqb k c) eqn:Ekc.
    + apply String.eqb_eq in Ekc; subst k.
      rewrite E in Ek; injection Ek as <-. now apply (IH e0).
    + now rewrite Ek.
Qed.

(** The tree after a [descend] is the tree before, or that tree with one
    directory added. *)
Lemma descend_tree_cases (c : Controller) (nm : string) (ignore_exists : bool)
    (w : World) :
  fs (snd (Controller_descend c nm ignore_exists w)) = fs w
  \/ exists p,
       add_dir (fs w) p
       = Some (fs (snd (Controller_descend c nm ignore_exists w))).
Proof.
  unfold Controller_descend, _is_dryrun, _log_declare_entry,
    _log_declare_return.
  destruct (_log c) as [lg|]; [|left; reflexivity].
  destruct (_dryrun c).
  - left. cbn -[emit]. now autorewrite with world.
  - unfold_py.
    destruct (has_nul nm) eqn:Hnul;
      [left; simpl_world; cbn; now autorewrite with world|].
    autorewrite with world.
    destruct (stat (fs w) (cwd w) nm) as [err|[p [t|ch]]] eqn:Hstat.
    1, 2: simpl_world;
      destruct (resolve (fs w) (cwd w) nm) as [err'|p'] eqn:Hres;
        [left; cbn; now autorewrite with world|];
      destruct (lookup (fs w) p') eqn:Hlook;
        [left; cbn; now autorewrite with world|];
      destruct (add_dir (fs w) p') as [root'|] eqn:Hadd;
        [|left; cbn; now autorewrite with world];
      right; exists p'; simpl_world;
      rewrite (stat_after_add_dir _ _ _ _ _ Hres Hadd);
      simpl_world; assumption.
    left. destruct ignore_exists; simpl_world.
    + rewrite Hstat. simpl_world. reflexivity.
    + cbn. now autorewrite with world.
Qed.

(** X12: [descend] destroys nothing: on any Controller and for any name,
    however the call ends, every regular file of the tree is still there
    with its text and every directory is still a directory. *)
Theorem descend_never_destroys (c : Controller) (nm : string)
    (ignore_exists : bool) (w : World) (q : path) :
  (forall t, lookup (fs w) q = Some (File t) ->
     lookup (fs (snd (Controller_descend c nm ignore_exists w))) q
     = Some (File t))
  /\ (is_dir (lookup (fs w) q) = true ->
      is_dir (lookup (fs (snd (Controller_descend c nm ignore_exists w))) q)
      = true).
Proof.
  destruct (descend_tree_cases c nm ignore_exists w) as [-> | [p Hadd]].
  - split; auto.
  - split.
    + intros t Hq. eapply add_dir_keeps_files; eassumption.
    + intros Hq. eapply add_dir_keeps_dirs; eassumption.
Qed.



Lemma do_calls_cons_inv (r : Ripper) (cl : call) (cs : list call)
    (w w1 : World) (vs : list value) :
  do_calls r (cl :: cs) w = (inr vs, w1) ->
  exists v wm vs',
    do_call r cl w = (inr v, wm)
    /\ do_calls r cs wm = (inr vs', w1)
    /\ vs = v :: vs'.
Proof.
  cbn [do_calls]. unfold bind, ret.
  destruct (do_call r cl w) as [[e|v] wm]; [discriminate|].
  destruct (do_calls r cs wm) as [[e|vs'] w'] eqn:Hrest; [discriminate|].
  intros [= <- <-]. eauto 6.
Qed.

(** Where a run of live descents that all returned [True] has arrived, each
    name being one ordinary component. *)
Lemma descents_arrive (c : Controller) (lg : Logger)
    (dirs : list (string * bool)) :
  _log c = Some lg -> _dryrun c = false ->
  Forall (fun d => simple_name (fst d) = true) dirs ->
  forall w w1,
    do_calls (Root c) (map (fun d => CallDescend (fst d) (snd d)) dirs) w
      = (inr (map (fun _ => VBool true) dirs), w1) ->
    cwd w1 = cwd w ++ map fst dirs
    /\ (dirs <> [] -> is_dir (lookup (fs w1) (cwd w1)) = true).
Proof.
  intros Hlog Hdry Hsimple.
  induction Hsimple as [|[nm ie] dirs Hnm _ IH]; intros w w1 Hrun.
  - cbn in Hrun. injection Hrun as <-. rewrite app_nil_r. now split.
  - cbn [map fst snd] in Hrun.
    apply do_calls_cons_inv in Hrun as (v & wm & vs' & Hd & Hrest & Hvs).
    cbn in Hvs. injection Hvs as <- <-. cbn in Hd, Hnm.
    destruct (descend_true_inv _ _ _ _ _ _ Hlog Hdry Hd) as [Hres Hdirm].
    rewrite (resolve_simple (fs w) (cwd w) nm Hnm) in Hres.
    destruct (lookup (fs w) (cwd w)) as [[t|ch]|]; try discriminate.
    injection Hres as Hcwdm.
    destruct (IH wm w1 Hrest) as [Hcwd1 Hdir1].
    split.
    + rewrite Hcwd1, <- Hcwdm. cbn [map fst]. now rewrite <- app_assoc.
    + intros _. destruct dirs as [|d dirs]; [|apply Hdir1; discriminate].
      cbn in Hrest. now injection Hrest as <-.
Qed.

(** X11: The pairing discipline works, over a directory tree without
    symbolic links: in a live run, after any number of nested descents that
    all returned [True] (each name one ordinary component: no slash, not
    [.] or [..], no NUL byte, at most 255 bytes), the same number of [ascend] calls succeeds and brings the
    current directory back to where the first [descend] started, with the
    tree as the descents left it. *)
Theorem nested_descents_unwind (c : Controller) (lg : Logger)
    (dirs : list (string * bool)) (w w1 : World) :
  _log c = Some lg ->
  _dryrun c = false ->
  Forall (fun d => simple_name (fst d) = true) dirs ->
  do_calls (Root c) (map (fun d => CallDescend (fst d) (snd d)) dirs) w
    = (inr (map (fun _ => VBool true) dirs), w1) ->
  cwd w1 = cwd w ++ map fst dirs
  /\ exists w2,
       do_calls (Root c) (repeat CallAscend (length dirs)) w1
         = (inr (repeat VNone (length dirs)), w2)
       /\ cwd w2 = cwd w
       /\ fs w2 = fs w1.
Proof.
  intros Hlog Hdry Hsimple Hrun.
  destruct (descents_arrive c lg dirs Hlog Hdry Hsimple w w1 Hrun)
    as [Hcwd1 Hdir1].
  split; [assumption|].
  destruct dirs as [|d dirs].
  - exists w1. cbn in *. rewrite app_nil_r in Hcwd1. auto.
  - destruct (ascends_from_dir c lg (length (d :: dirs)) Hlog Hdry w1
                (Hdir1 ltac:(discriminate))) as (w2 & Hup & Hfs & Hcwd2).
    exists w2. repeat split; try assumption.
    rewrite Hcwd2, Hcwd1, length_app, length_map.
    replace (length (cwd w) + length (d :: dirs) - length (d :: dirs))
      with (length (cwd w) + 0) by lia.
    now rewrite firstn_app_2, app_nil_r.
Qed.

End Chains.

Section Startup.

Context {libs : Libraries}.

(** ** [Controller.fetch]: the tree, and what is not caught *)

(** X13: [Controller.fetch] catches nothing: what the session's GET raises comes
    out of [fetch] as it is, for either value of [tree], and so does what
    the HTML parser raises on the body; when both succeed and [tree] is
    true the result is the tree parsed from the body of the response. *)
Theorem fetch_tree_and_errors (c : Controller) (lg : Logger) (s : Session)
    (url : string) (w : World) :
  _log c = Some lg ->
  _session c = Some s ->
  (forall e tree, net w url = inl e ->
     exists w', Controller_fetch c url tree w = (inl e, w') /\ logged w w')
  /\ (forall r e, net w url = inr r -> html_fromstring (content r) = inl e ->
     exists w', Controller_fetch c url true w = (inl e, w') /\ logged w w')
  /\ (forall r t, net w url = inr r -> html_fromstring (content r) = inr t ->
     exists w', Controller_fetch c url true w = (inr (VTree t), w')
                /\ logged w w').
Proof.
  intros Hlog Hses.
  repeat split; intros; unfold Controller_fetch; rewrite Hlog, Hses;
    unfold_py; unfold Session_get, of_result; autorewrite with world.
  - rewrite H. eexists. split; [reflexivity|].
    eauto using logged_trans with world.
  - rewrite H. cbn -[emit]. rewrite H0.
    eexists. split; [reflexivity|].
    eauto using logged_trans with world.
  - rewrite H. cbn -[emit]. rewrite H0.
    eexists. split; [reflexivity|].
    eauto using logged_trans with world.
Qed.

(** X14: [Controller.fetch] stores nothing: on any Controller, in a live run
    as in a dry run, whether it returns or raises, all it leaves in the
    world is log records; the page goes to the caller only. *)
Theorem fetch_only_logs (c : Controller) (url : string) (tree : bool)
    (w : World) :
  logged w (snd (Controller_fetch c url tree w)).
Proof.
  unfold Controller_fetch, _log_declare_entry, _log_declare_return.
  destruct (_log c) as [lg|]; [|apply logged_refl].
  unfold_py. unfold Session_get.
  destruct (_session c) as [s|]; cbn -[emit];
    [|eauto using logged_trans with world].
  autorewrite with world.
  destruct (net w url) as [e|page]; cbn -[emit];
    [eauto using logged_trans with world|].
  destruct tree; cbn -[emit]; [|eauto 6 using logged_trans with world].
  unfold of_result.
  destruct (html_fromstring (content page)); cbn -[emit];
    eauto 6 using logged_trans with world.
Qed.

(** ** Verbosity *)

(** X15: A higher log level never hides a record a lower one shows: for
    [n <= m] in 0..5 the threshold set for [m] is at most the one set for
    [n], so a record that passes the threshold of [n] passes that of [m]. *)
Theorem verbosity_monotone (n m ln lm : Z) :
  (0 <= n <= m)%Z -> (m <= 5)%Z ->
  loglevel_to_level n = Some ln ->
  loglevel_to_level m = Some lm ->
  (lm <= ln)%Z
  /\ forall r w w',
       log_level w = ln -> log_level w' = lm ->
       emit r w = add_record r w -> emit r w' = add_record r w'.
Proof.
  intros Hn Hm Hln Hlm.
  assert (Hle : (lm <= ln)%Z).
  { assert (Hcases : forall k, (0 <= k <= 5)%Z ->
                (k = 0 \/ k = 1 \/ k = 2 \/ k = 3 \/ k = 4 \/ k = 5)%Z)
      by (intros; lia).
    destruct (Hcases n ltac:(lia)) as [->|[->|[->|[->|[->| ->]]]]];
      destruct (Hcases m ltac:(lia)) as [->|[->|[->|[->|[->| ->]]]]];
      try lia;
      cbn in Hln, Hlm; injection Hln as <-; injection Hlm as <-;
      unfold CRITICAL, ERROR, WARNING, INFO, DEBUG; lia. }
  split; [exact Hle|].
  intros r w w' Hw Hw'. unfold emit. rewrite Hw, Hw'.
  destruct (Z.leb_spec ln (levelno r)) as [Hpass|Hhide].
  - intros _. destruct (Z.leb_spec lm (levelno r)); [reflexivity | lia].
  - intros Heq. exfalso.
    apply (f_equal (fun x => length (log_out x))) in Heq.
    cbn in Heq. rewrite length_app in Heq. cbn in Heq. lia.
Qed.

(** ** [init] *)

Lemma parse_config_logged (c : Controller) (lg : Logger) (conffile : string)
    (w : World) :
  _log c = Some lg ->
  logged w (snd (_Controller__parse_config c conffile w)).
Proof.
  intros Hlog. unfold _Controller__parse_config. rewrite Hlog.
  unfold_py. unfold attempt, open_r. autorewrite with world.
  destruct (stat (fs w) (cwd w) conffile) as [e|[p [t|ch]]]; simpl_world.
  1, 3: eauto using logged_trans with world.
  destruct (json_load t) as [e|v]; [destruct (is_ValueError e)|];
    simpl_world; eauto using logged_trans with world.
Qed.



(** Runs [init] on a new Controller up to the call of [__parse_config]. *)
Ltac init_to_parse_config Hlvl :=
  unfold Controller_init, _Controller__init_log, bind;
  cbn -[_Controller__parse_config emit configure loglevel_to_level];
  rewrite Hlvl;
  cbn -[_Controller__parse_config emit configure];
  destruct (dryrun _); cbn -[_Controller__parse_config emit configure];
  unfold lift_world at 1; cbn [fst snd].

(** X16: How [init] on a new Controller can end when no log file is given
    (logging goes to the console).  If it returns, the Controller
    has its log, the dry-run flag of the arguments, a configuration that is
    not [None], and the one session the call created.  If it raises, there
    is no session, on the Controller or in the world.  Either way the
    directory tree and the current directory are untouched. *)
Theorem init_outcomes (a : Args) (w : World) :
  logfile a = None ->
  match Controller_init (Controller_new (Some a), w) with
  | (inr _, (c', w')) =>
      _log c' = Some (mkLogger "root")
      /\ _dryrun c' = dryrun a
      /\ is_None (_config c') = false
      /\ _session c' = Some (mkSession (sessions w))
      /\ sessions w' = S (sessions w)
      /\ fs w' = fs w /\ cwd w' = cwd w
  | (inl _, (c', w')) =>
      _session c' = None
      /\ sessions w' = sessions w
      /\ fs w' = fs w /\ cwd w' = cwd w
  end.
Proof.
  intros _.
  destruct (loglevel_to_level (loglevel a)) as [lvl|] eqn:Hlvl.
  - init_to_parse_config Hlvl.
    all: match goal with
         | |- context [_Controller__parse_config ?c ?f ?w0] =>
             pose proof (parse_config_logged c (mkLogger "root") f w0 eq_refl)
               as (Hfs & Hcwd & Hses & _);
             destruct (_Controller__parse_config c f w0) as [[e|v] w2]
         end.
    all: cbn -[emit configure] in *; autorewrite with world in *.
    all: try (repeat split; congruence).
    all: destruct (is_None v) eqn:Hv; cbn -[emit configure];
      autorewrite with world;
      repeat split; unfold add_session; cbn; autorewrite with world;
      congruence.
  - unfold Controller_init, _Controller__init_log, bind.
    cbn -[loglevel_to_level]. rewrite Hlvl. cbn. auto.
Qed.

(** *** Level 0 *)

Lemma emit_silent (r : LogRecord) (w : World) :
  log_level w = 51%Z -> (levelno r <= 50)%Z -> emit r w = w.
Proof.
  intros Hlevel Hr. unfold emit. rewrite Hlevel.
  destruct (Z.leb_spec 51 (levelno r)); [lia | reflexivity].
Qed.

#[local] Hint Rewrite log_level_emit : world.

(** Drops the log calls that a threshold of 51 swallows. *)
Ltac silence :=
  repeat (rewrite emit_silent
           by (autorewrite with world;
               first [ assumption
                     | reflexivity
                     | unfold CRITICAL, ERROR, WARNING, INFO, DEBUG; cbn; lia ])).

Lemma parse_config_silent (c : Controller) (lg : Logger) (conffile : string)
    (w : World) :
  _log c = Some lg -> log_level w = 51%Z ->
  snd (_Controller__parse_config c conffile w) = w.
Proof.
  intros Hlog Hlevel. unfold _Controller__parse_config. rewrite Hlog.
  unfold_py. unfold attempt, open_r. silence.
  destruct (stat (fs w) (cwd w) conffile) as [e|[p [t|ch]]];
    cbn -[emit]; silence; try reflexivity.
  destruct (json_load t) as [e|v]; [destruct (is_ValueError e)|];
    cbn -[emit]; silence; reflexivity.
Qed.

(** X17: With log level 0 (the default of the command line) in a process whose
    logging is not configured yet, [init] writes no log record at all,
    however it ends: the CRITICAL records that say why the configuration
    could not be read are swallowed like the rest. *)
Theorem init_level_0_is_silent (a : Args) (w : World) :
  log_handlers w = false ->
  loglevel a = 0%Z ->
  log_out (snd (snd (Controller_init (Controller_new (Some a), w))))
  = log_out w.
Proof.
  intros Hfresh Hzero.
  assert (Hlvl : loglevel_to_level (loglevel a) = Some 51%Z)
    by now rewrite Hzero.
  init_to_parse_config Hlvl.
  all: unfold configure; rewrite Hfresh; silence.
  all: match goal with
       | |- context [_Controller__parse_config ?c ?f ?w0] =>
           pose proof (parse_config_silent c (mkLogger "root") f w0
                         eq_refl eq_refl) as Hsame;
           destruct (_Controller__parse_config c f w0) as [[e|v] w2]
       end.
  all: cbn [snd] in Hsame; subst w2; cbn -[emit]; try reflexivity.
  all: destruct (is_None v); cbn -[emit]; silence; reflexivity.
Qed.

(** *** What [__parse_config] does not catch *)

(** X18: [__parse_config] catches [ValueError] from [json.load] and nothing
    else: any other exception raised while the text is parsed comes out of
    [__parse_config], and out of [init], which then ends with that
    exception instead of [exit(1)], and without a session. *)
Theorem parse_error_not_caught (c : Controller) (lg : Logger) (a : Args)
    (lvl : Z) (w : World) (p : path) (t : string) (e : exn) :
  _log c = Some lg ->
  loglevel_to_level (loglevel a) = Some lvl ->
  stat (fs w) (cwd w) (config a) = inr (p, File t) ->
  json_load t = inl e ->
  is_ValueError e = false ->
  (exists w', _Controller__parse_config c (config a) w = (inl e, w')
              /\ logged w w')
  /\ (exists c' w',
        Controller_init (Controller_new (Some a), w) = (inl e, (c', w'))
        /\ _session c' = None
        /\ sessions w' = sessions w).
Proof.
  intros Hlog Hlvl Hstat Hjson Hnot.
  assert (Hparse : forall c0 lg0 w0,
             _log c0 = Some lg0 -> fs w0 = fs w -> cwd w0 = cwd w ->
             exists w', _Controller__parse_config c0 (config a) w0 = (inl e, w')
                        /\ logged w0 w').
  { intros c0 lg0 w0 Hlog0 Hfs Hcwd.
    unfold _Controller__parse_config. rewrite Hlog0.
    unfold_py. unfold attempt, open_r. autorewrite with world.
    rewrite Hfs, Hcwd, Hstat. simpl_world. rewrite Hjson, Hnot.
    eexists. split; [reflexivity|].
    eauto using logged_trans with world. }
  split; [now apply Hparse with (lg0 := lg)|].
  init_to_parse_config Hlvl.
  all: match goal with
       | |- context [_Controller__parse_config ?c0 ?f ?w0] =>
           destruct (Hparse c0 (mkLogger "root") w0 eq_refl)
             as (w2 & Hp & _ & _ & Hses & _);
           [now autorewrite with world | now autorewrite with world
           | rewrite Hp]
       end.
  all: cbn. all: do 2 eexists; split; [reflexivity|]; split; [reflexivity|].
  all: rewrite Hses; now autorewrite with world.
Qed.

(** ** The script block *)


End Startup.

(** ** The theorems at the sample objects *)

Lemma descend_dryrun_witness :
  exists w', Controller_descend dry "a" false sample_world
               = (inr (VBool true), w')
             /\ logged sample_world w'.
Proof.
  apply (descend_dryrun dry (mkLogger "root") "a" false sample_world);
    reflexivity.
Defined.



Lemma descend_on_file_witness :
  exists w', Controller_descend live "f" true sample_world
               = (inl (OSError EEXIST), w')
             /\ is_OSError (OSError EEXIST) = true
             /\ logged sample_world w'.
Proof.
  apply (descend_on_file live (mkLogger "root") "f" true sample_world
           ["f"] "data"); reflexivity.
Defined.



Lemma parse_config_or_exit_witness :
  (exists w', _Controller__parse_config (libs := sample_libs) live "conf.json"
                sample_world = (inr (VDict []), w')
              /\ logged sample_world w')
  /\ (exists w', _Controller__parse_config (libs := sample_libs) live "bad.json"
                   sample_world = (inr VNone, w')
                 /\ logged sample_world w')
  /\ (exists c' w',
        Controller_init (libs := sample_libs)
          (Controller_new (Some bad_args), sample_world)
          = (inl (SystemExit 1), (c', w'))
        /\ _session c' = None
        /\ sessions w' = sessions sample_world).
Proof.
  assert (Hbad : config_fails (libs := sample_libs) (fs sample_world)
                   (cwd sample_world) (config bad_args)).
  { right. exists ["bad.json"], "not json", "Expecting value".
    split; reflexivity. }
  split.
  - destruct (parse_config_or_exit (libs := sample_libs) live
                (mkLogger "root") sample_args DEBUG sample_world
                eq_refl eq_refl) as (H & _).
    exact (H ["conf.json"] "{}" (VDict []) eq_refl eq_refl).
  - destruct (parse_config_or_exit (libs := sample_libs) live
                (mkLogger "root") bad_args CRITICAL sample_world
                eq_refl eq_refl) as (_ & H).
    exact (H Hbad).
Defined.

Lemma init_log_levels_witness :
  let level_after n :=
    let (r, w') := _Controller__init_log n (Some "rip.log") "root" fresh_world in
    match r with inr _ => Some (log_level w') | inl _ => None end in
  level_after 0%Z = Some 51%Z
  /\ Forall (fun l => (l < 51)%Z) builtin_levels
  /\ level_after 1%Z = Some CRITICAL
  /\ level_after 2%Z = Some ERROR
  /\ level_after 3%Z = Some WARNING
  /\ level_after 4%Z = Some INFO
  /\ level_after 5%Z = Some DEBUG.
Proof.
  exact (init_log_levels (Some "rip.log") "root" fresh_world eq_refl).
Defined.

Lemma fetch_raw_response_witness :
  exists w', Controller_fetch (libs := sample_libs) live
               "http://example.org/gone" false sample_world
               = (inr (VResponse (mkResponse 404 "Not Found" [])), w')
             /\ logged sample_world w'.
Proof.
  apply (fetch_raw_response (libs := sample_libs) live (mkLogger "root")
           (mkSession 0) "http://example.org/gone"
           (mkResponse 404 "Not Found" []) sample_world);
    reflexivity.
Defined.

(** C7 as stated fails: the exception of a ripper without parent is not a
    [ConfigurationError]. *)
Lemma no_parent_counterexample :
  exists e,
    fetch (libs := sample_libs) (Plain "orphan" None) "http://example.org/"
      true sample_world = (inl e, sample_world)
    /\ exn_name e = "AttributeError"
    /\ exn_name e <> "ConfigurationError".
Proof.
  exists (AttributeError "NoneType" "fetch").
  repeat split. discriminate.
Qed.

(** ** The forwarding methods at a ripper below the Controller *)

(** C1 at a ripper whose parent is the Controller: the parent's [fetch]
    returns the parsed tree (the raw response when [tree] is false), and the
    ripper's [fetch], which forwards the same call, returns [None] instead
    of that result. *)
Example fetch_through_child :
  fst (fetch (libs := sample_libs) (Root live) "http://example.org/"
         true sample_world)
    = inr (VTree (Element "html" "Not Found" []))
  /\ fst (fetch (libs := sample_libs) (Plain "site" (Some (Root live)))
            "http://example.org/" true sample_world)
    = inr VNone
  /\ fst (fetch (libs := sample_libs) (Root live) "http://example.org/"
            false sample_world)
    = inr (VResponse (mkResponse 404 "Not Found" []))
  /\ fst (fetch (libs := sample_libs) (Plain "site" (Some (Root live)))
            "http://example.org/" false sample_world)
    = inr VNone.
Proof. repeat split. Qed.

(** C2 at a ripper whose parent is the Controller: the parent's [descend]
    returns [False] on the existing directory and [True] on a fresh name,
    and the ripper's [descend], which forwards the same call, returns [None]
    in both cases instead of that boolean. *)
Example descend_through_child :
  fst (descend (Root live) "a" false sample_world) = inr (VBool false)
  /\ fst (descend (Plain "site" (Some (Root live))) "a" false sample_world)
    = inr VNone
  /\ fst (descend (Root live) "new" false sample_world) = inr (VBool true)
  /\ fst (descend (Plain "site" (Some (Root live))) "new" false sample_world)
    = inr VNone.
Proof. repeat split. Qed.

Lemma init_log_out_of_range_witness :
  _Controller__init_log 6%Z None "root" sample_world
    = (inl (UnboundLocalError "level"), sample_world).
Proof.
  apply (init_log_out_of_range 6%Z None "root" sample_world). right. lia.
Defined.

Lemma init_exits_on_null_witness :
  exists c' w',
    Controller_init (libs := sample_libs)
      (Controller_new (Some null_args), sample_world)
      = (inl (SystemExit 1), (c', w'))
    /\ _session c' = None
    /\ sessions w' = sessions sample_world.
Proof.
  apply (init_exits_on_null (libs := sample_libs) null_args WARNING
           sample_world ["null.json"] "null"); reflexivity.
Defined.

(** ** The later theorems at sample objects *)

Lemma calls_reach_controller_witness :
  (forall url tree,
      fetch (libs := sample_libs) (two_below (Some (Root live))) url tree
        sample_world
      = (through (two_below (Some (Root live)))
           (fst (Controller_fetch (libs := sample_libs) live url tree
                   sample_world)),
         snd (Controller_fetch (libs := sample_libs) live url tree
                sample_world)))
  /\ (forall nm ignore_exists,
      descend (two_below (Some (Root live))) nm ignore_exists sample_world
      = (through (two_below (Some (Root live)))
           (fst (Controller_descend live nm ignore_exists sample_world)),
         snd (Controller_descend live nm ignore_exists sample_world)))
  /\ ascend (two_below (Some (Root live))) sample_world
     = (through (two_below (Some (Root live)))
          (fst (Controller_ascend live sample_world)),
        snd (Controller_ascend live sample_world)).
Proof.
  exact (calls_reach_controller (libs := sample_libs)
           (two_below (Some (Root live))) live sample_world eq_refl).
Defined.

Lemma chain_without_controller_witness :
  (forall url tree,
      fetch (libs := sample_libs) (two_below None) url tree sample_world
      = (inl (AttributeError "NoneType" "fetch"), sample_world))
  /\ (forall nm ignore_exists,
      descend (two_below None) nm ignore_exists sample_world
      = (inl (AttributeError "NoneType" "descend"), sample_world))
  /\ ascend (two_below None) sample_world
     = (inl (AttributeError "NoneType" "ascend"), sample_world).
Proof.
  exact (chain_without_controller (libs := sample_libs) (two_below None)
           sample_world eq_refl).
Defined.

Lemma dry_run_keeps_tree_witness :
  let calls := [CallDescend "new" false; CallFetch "http://example.org/" true;
                CallDescend "f" true; CallAscend; CallAscend; CallAscend] in
  fs (snd (do_calls (libs := sample_libs) (two_below (Some (Root dry))) calls
             sample_world)) = fs sample_world
  /\ cwd (snd (do_calls (libs := sample_libs) (two_below (Some (Root dry)))
                calls sample_world)) = cwd sample_world.
Proof.
  apply (dry_run_keeps_tree (libs := sample_libs)
           (two_below (Some (Root dry)))).
  intros c [= <-]. reflexivity.
Defined.





Lemma nested_descents_unwind_witness :
  let dirs := [("old", true); ("deep", true); ("x", false)] in
  let w1 := snd (do_calls (libs := sample_libs) (Root live)
                   (map (fun d => CallDescend (fst d) (snd d)) dirs)
                   other_world) in
  cwd w1 = cwd other_world ++ map fst dirs
  /\ exists w2,
       do_calls (libs := sample_libs) (Root live)
         (repeat CallAscend (length dirs)) w1
         = (inr (repeat VNone (length dirs)), w2)
       /\ cwd w2 = cwd other_world
       /\ fs w2 = fs w1.
Proof.
  apply (nested_descents_unwind (libs := sample_libs) live (mkLogger "root")
           [("old", true); ("deep", true); ("x", false)] other_world).
  - reflexivity.
  - reflexivity.
  - repeat constructor.
  - vm_compute. reflexivity.
Defined.

Lemma fetch_tree_and_errors_witness :
  (exists w', Controller_fetch (libs := strict_libs) live
                "http://down.example/" true other_world
                = (inl (LibraryError "ConnectionError" "Connection refused"), w')
              /\ logged other_world w')
  /\ (exists w', Controller_fetch (libs := strict_libs) live
                   "http://empty.example/" true other_world
                   = (inl (LibraryError "ParserError" "Document is empty"), w')
                 /\ logged other_world w')
  /\ (exists w', Controller_fetch (libs := strict_libs) live
                   "http://up.example/" true other_world
                   = (inr (VTree (Element "html" "<p>hi</p>" [])), w')
                 /\ logged other_world w').
Proof.
  repeat split.
  - destruct (fetch_tree_and_errors (libs := strict_libs) live
                (mkLogger "root") (mkSession 0) "http://down.example/"
                other_world eq_refl eq_refl) as (H & _ & _).
    exact (H _ true eq_refl).
  - destruct (fetch_tree_and_errors (libs := strict_libs) live
                (mkLogger "root") (mkSession 0) "http://empty.example/"
                other_world eq_refl eq_refl) as (_ & H & _).
    exact (H (mkResponse 200 "" []) _ eq_refl eq_refl).
  - destruct (fetch_tree_and_errors (libs := strict_libs) live
                (mkLogger "root") (mkSession 0) "http://up.example/"
                other_world eq_refl eq_refl) as (_ & _ & H).
    exact (H (mkResponse 200 "<p>hi</p>" []) _ eq_refl eq_refl).
Defined.

Lemma init_level_0_is_silent_witness :
  fst (Controller_init (libs := sample_libs)
         (Controller_new (Some quiet_args), other_world))
    = inl (SystemExit 1)
  /\ log_out (snd (snd (Controller_init (libs := sample_libs)
                          (Controller_new (Some quiet_args), other_world))))
     = log_out other_world.
Proof.
  split; [reflexivity|].
  apply (init_level_0_is_silent (libs := sample_libs) quiet_args other_world);
    reflexivity.
Defined.

Lemma parse_error_not_caught_witness :
  (exists w', _Controller__parse_config (libs := strict_libs) live
                "nested.json" other_world
                = (inl (LibraryError "RecursionError"
                          "maximum recursion depth exceeded"), w')
              /\ logged other_world w')
  /\ (exists c' w',
        Controller_init (libs := strict_libs)
          (Controller_new (Some nested_args), other_world)
          = (inl (LibraryError "RecursionError"
                    "maximum recursion depth exceeded"), (c', w'))
        /\ _session c' = None
        /\ sessions w' = sessions other_world).
Proof.
  apply (parse_error_not_caught (libs := strict_libs) live (mkLogger "root")
           nested_args ERROR other_world ["home"; "nested.json"] "[[[[");
    reflexivity.
Defined.


Lemma verbosity_monotone_witness :
  (INFO <= ERROR)%Z
  /\ forall r w w',
       log_level w = ERROR -> log_level w' = INFO ->
       emit r w = add_record r w -> emit r w' = add_record r w'.
Proof.
  apply (verbosity_monotone 2 4 ERROR INFO); solve [reflexivity | lia].
Defined.

Lemma descend_never_destroys_witness :
  (forall t, lookup (fs sample_world) ["f"] = Some (File t) ->
     lookup (fs (snd (Controller_descend live "a/b" false sample_world))) ["f"]
     = Some (File t))
  /\ (is_dir (lookup (fs sample_world) ["f"]) = true ->
      is_dir (lookup (fs (snd (Controller_descend live "a/b" false
                                 sample_world))) ["f"]) = true).
Proof.
  exact (descend_never_destroys live "a/b" false sample_world ["f"]).
Defined.

Lemma init_outcomes_witness :
  match Controller_init (libs := sample_libs)
          (Controller_new (Some sample_args), fresh_world) with
  | (inr _, (c', w')) =>
      _log c' = Some (mkLogger "root")
      /\ _dryrun c' = dryrun sample_args
      /\ is_None (_config c') = false
      /\ _session c' = Some (mkSession (sessions fresh_world))
      /\ sessions w' = S (sessions fresh_world)
      /\ fs w' = fs fresh_world /\ cwd w' = cwd fresh_world
  | (inl _, (c', w')) =>
      _session c' = None
      /\ sessions w' = sessions fresh_world
      /\ fs w' = fs fresh_world /\ cwd w' = cwd fresh_world
  end.
Proof.
  exact (init_outcomes (libs := sample_libs) sample_args fresh_world eq_refl).
Defined.
